(** * RoombaBlobDetector: colour mask, blob extraction, corner check

    A shallow embedding of [src/src/RoombaBlobDetector.cpp].

    Conventions of the embedding.
    - [float] and [double] values are idealised as exact rationals ([Q]);
      rounding is not modelled.  Every comparison of the source is kept
      with its strictness.
    - [int] settings and 8-bit channel values are integers ([Z]); the
      source does no arithmetic on them that could wrap.
    - A [cv::Mat] / [cv::cuda::GpuMat] is a list of rows.
    - Functions of OpenCV, Eigen and libm are fields of the record
      [Library]; the detector is defined for an arbitrary library.
    - The out-parameter vector and the debug topics live in a [Heap]
      threaded by a small state-and-exception monad. *)

From Stdlib Require Import String ZArith QArith Qround Qminmax Lqa Lia Bool List.
Import ListNotations.
Open Scope Q_scope.

(** ** Numbers *)

(** [a < b] on idealised floating values, as a boolean. *)
Definition Qltb (a b : Q) : bool := negb (Qle_bool b a).

(** Truncation toward zero, the rounding [std::fmod] divides with. *)
Definition Qtrunc (q : Q) : Z := Z.quot (Qnum q) (Zpos (Qden q)).

(** [std::fmod x y]: [x - y * trunc (x / y)]. *)
Definition fmod (x y : Q) : Q := x - y * inject_Z (Qtrunc (x / y)).

(** The [double] constant [M_PI]. *)
Definition M_PI : Q := 884279719003555 # 281474976710656.

(** [cvRound]: round to nearest, ties to even. *)
Definition cvRound (q : Q) : Z :=
  let f := Qfloor q in
  let r := q - inject_Z f in
  if Qltb r (1 # 2) then f
  else if Qltb (1 # 2) r then (f + 1)%Z
  else if Z.even f then f else (f + 1)%Z.

(** [cv::saturate_cast<uchar>(double)]. *)
Definition saturate_uchar (q : Q) : Z := Z.max 0 (Z.min 255 (cvRound q)).

(** ** Matrices *)

Definition Mat (A : Type) : Type := list (list A).

Definition rows {A} (m : Mat A) : nat := length m.
Definition cols {A} (m : Mat A) : nat := length (hd [] m).

Definition mat_get {A} (m : Mat A) (r c : nat) : option A :=
  match nth_error m r with
  | Some row => nth_error row c
  | None => None
  end.

Definition mat_map {A B} (f : A -> B) (m : Mat A) : Mat B := map (map f) m.

Fixpoint zipWith {A B C} (f : A -> B -> C) (xs : list A) (ys : list B) : list C :=
  match xs, ys with
  | x :: xs', y :: ys' => f x y :: zipWith f xs' ys'
  | _, _ => []
  end.

Definition mat_zipWith {A B C} (f : A -> B -> C) (a : Mat A) (b : Mat B) : Mat C :=
  zipWith (zipWith f) a b.

(** Every row of [m] has [c] entries and there are [r] rows. *)
Definition has_size {A} (r c : nat) (m : Mat A) : bool :=
  Nat.eqb (length m) r && forallb (fun row => Nat.eqb (length row) c) m.

(** A matrix as OpenCV holds it: all rows of one length. *)
Definition rectangular {A} (m : Mat A) : bool := has_size (rows m) (cols m) m.

(** [Mat::setTo]: every element overwritten. *)
Definition setTo {A} (v : A) (m : Mat A) : Mat A := mat_map (fun _ => v) m.

(** [cv::Mat::zeros]. *)
Definition zeros (r c : nat) : Mat Z := repeat (repeat 0%Z c) r.

(** [cv::bitwise_or] on single-channel 8-bit matrices. *)
Definition bitwise_or (a b : Mat Z) : Mat Z := mat_zipWith Z.lor a b.

(** ** Pixels, points, rectangles *)

Definition Vec3b : Type := (Z * Z * Z)%type.
Definition Vec3d : Type := (Q * Q * Q)%type.
Definition Point : Type := (Z * Z)%type.
Definition Contour : Type := list Point.
Definition Vector2d : Type := (Q * Q)%type.

Definition dot (a b : Vector2d) : Q := fst a * fst b + snd a * snd b.
Definition vscale (k : Q) (a : Vector2d) : Vector2d := (k * fst a, k * snd a).
Definition vadd (a b : Vector2d) : Vector2d := (fst a + fst b, snd a + snd b).

(** [cv::RotatedRect]. *)
Record RotatedRect : Type := mkRotatedRect {
  center : Vector2d;
  size_width : Q;
  size_height : Q;
  angle : Q
}.

(** The fields of [cv::Moments] that the detector reads. *)
Record Moments : Type := mkMoments {
  m00 : Q;
  nu20 : Q;
  nu11 : Q;
  nu02 : Q
}.

(** [Eigen::Matrix2d], by entries [(row, column)]. *)
Record Matrix2d : Type := mkMatrix2d {
  c00 : Q; c01 : Q;
  c10 : Q; c11 : Q
}.

(** ** Settings ([RoombaEstimatorSettings.hpp]) *)

Record RoombaEstimatorSettings : Type := mkSettings {
  pixels_per_meter : Q;
  roomba_plate_width : Q;
  roomba_height : Q;
  ght_levels : Z;
  ght_dp : Z;
  ght_votes_threshold : Z;
  camera_canny_threshold : Z;
  template_canny_threshold : Z;
  hsv_slice_h_green_min : Z;
  hsv_slice_h_green_max : Z;
  hsv_slice_h_red1_min : Z;
  hsv_slice_h_red1_max : Z;
  hsv_slice_h_red2_min : Z;
  hsv_slice_h_red2_max : Z;
  hsv_slice_s_min : Z;
  hsv_slice_s_max : Z;
  hsv_slice_v_min : Z;
  hsv_slice_v_max : Z;
  morphology_size : Z;
  morphology_iterations : Z;
  bottom_camera_aov : Q;
  debug_hsv_slice : bool;
  debug_contours : bool;
  debug_rects : bool
}.

(** ** External libraries *)

Record Library : Type := mkLibrary {
  (** [cv::cuda::cvtColor (_, _, COLOR_RGB2HSV)], per pixel. *)
  cuda_cvtColor : Vec3b -> Vec3b;
  (** [cv::cvtColor (_, _, COLOR_RGB2HSV)], per pixel. *)
  cvtColor : Vec3b -> Vec3b;
  (** [createMorphologyFilter (MORPH_OPEN, CV_8UC1, rect (size, size),
      Point (-1,-1), iterations)] applied to a mask. *)
  morphology_open : Z -> Z -> Mat Z -> Mat Z;
  (** [cv::findContours (_, _, CV_RETR_EXTERNAL, CV_CHAIN_APPROX_SIMPLE)]. *)
  findContours : Mat Z -> list Contour;
  (** [cv::moments] of a contour. *)
  moments : Contour -> Moments;
  (** [Eigen::SelfAdjointEigenSolver]: columns 0 and 1 of [eigenvectors ()]. *)
  eigenvectors : Matrix2d -> Vector2d * Vector2d;
  atan2 : Q -> Q -> Q;
  cos : Q -> Q;
  sin : Q -> Q;
  (** Contents of a freshly allocated, not yet written matrix cell. *)
  uninitialized : nat -> nat -> Z
}.

(** [std::atan2] returns a value in [[-pi, pi]]. *)
Definition atan2_in_range (L : Library) : Prop :=
  forall y x : Q, - M_PI <= atan2 L y x /\ atan2 L y x <= M_PI.

(** ** Heap, events and the monad *)

Inductive Event : Type :=
| Publish_hsv_slice (mask : Mat Z)
| Publish_contours (height width : nat) (drawn : list Contour).

Record Heap : Type := mkHeap {
  (** the caller's [std::vector<cv::RotatedRect>] *)
  bounding_rects : list RotatedRect;
  (** images sent on the debug topics, oldest first *)
  published : list Event
}.

Inductive Res (A : Type) : Type :=
| Ret (a : A)
| Throw (what : string).
Arguments Ret {A} a.
Arguments Throw {A} what.

Definition M (A : Type) : Type := Heap -> Res A * Heap.

Definition ret {A} (a : A) : M A := fun h => (Ret a, h).

Definition bind {A B} (m : M A) (k : A -> M B) : M B :=
  fun h =>
    match m h with
    | (Ret a, h') => k a h'
    | (Throw w, h') => (Throw w, h')
    end.

Notation "x <- m ;; k" := (bind m (fun x => k))
  (at level 61, m at next level, right associativity).
Notation "m ;;; k" := (bind m (fun _ => k))
  (at level 61, right associativity).

Definition throw {A} (what : string) : M A := fun h => (Throw what, h).

Definition get_rects : M (list RotatedRect) :=
  fun h => (Ret (bounding_rects h), h).

Definition put_rects (v : list RotatedRect) : M unit :=
  fun h => (Ret tt, mkHeap v (published h)).

Definition push_back (r : RotatedRect) : M unit :=
  fun h => (Ret tt, mkHeap (bounding_rects h ++ [r]) (published h)).

Definition publish (e : Event) : M unit :=
  fun h => (Ret tt, mkHeap (bounding_rects h) (published h ++ [e])).

Definition when (b : bool) (m : M unit) : M unit := if b then m else ret tt.

(** ** The detector *)

Section Detector.

Variable L : Library.
Variable settings_ : RoombaEstimatorSettings.

(** *** Colour ranges *)

(** [cv::Scalar] bounds built from the settings: one per slice. *)
Definition green_lower : Vec3b :=
  (hsv_slice_h_green_min settings_, hsv_slice_s_min settings_, hsv_slice_v_min settings_).
Definition green_upper : Vec3b :=
  (hsv_slice_h_green_max settings_, hsv_slice_s_max settings_, hsv_slice_v_max settings_).
Definition red1_lower : Vec3b :=
  (hsv_slice_h_red1_min settings_, hsv_slice_s_min settings_, hsv_slice_v_min settings_).
Definition red1_upper : Vec3b :=
  (hsv_slice_h_red1_max settings_, hsv_slice_s_max settings_, hsv_slice_v_max settings_).
Definition red2_lower : Vec3b :=
  (hsv_slice_h_red2_min settings_, hsv_slice_s_min settings_, hsv_slice_v_min settings_).
Definition red2_upper : Vec3b :=
  (hsv_slice_h_red2_max settings_, hsv_slice_s_max settings_, hsv_slice_v_max settings_).

(** [lower <= px <= upper] on every channel, bounds included. *)
Definition in_bounds (lower upper px : Vec3b) : bool :=
  let '(l0, l1, l2) := lower in
  let '(u0, u1, u2) := upper in
  let '(p0, p1, p2) := px in
  (l0 <=? p0)%Z && (p0 <=? u0)%Z &&
  (l1 <=? p1)%Z && (p1 <=? u1)%Z &&
  (l2 <=? p2)%Z && (p2 <=? u2)%Z.

(** [cv::inRange] at one pixel: 255 inside the bounds, 0 outside. *)
Definition cv_inRange_px (lower upper px : Vec3b) : Z :=
  if in_bounds lower upper px then 255%Z else 0%Z.

(** Modelled from the spec: [cv_utils::inRange], the range test on GPU
    matrices declared in [iarc7_vision/cv_utils.hpp]; its definition is
    not among the sources.  The spec describes a per-pixel membership
    test, inclusive on hue, saturation and value; a member pixel is
    written as 255 and any other as 0, the convention of [cv::inRange]
    that [checkCorners] uses for the same ranges. *)
Definition cv_utils_inRange (src : Mat Vec3b) (lower upper : Vec3b) : Mat Z :=
  mat_map (cv_inRange_px lower upper) src.

(** *** thresholdFrame *)

(** [GpuMat::create (rows, cols, CV_8U)]: a matrix that already has the
    size is kept with its contents, any other is replaced by a new
    allocation whose cells hold whatever the allocator left there. *)
Definition create (r c : nat) (dst : Mat Z) : Mat Z :=
  if has_size r c dst then dst
  else map (fun i => map (fun j => uninitialized L i j) (seq 0 c)) (seq 0 r).

(** Lines 38-77: the three slices ORed into [dst], before the opening. *)
Definition hsv_slices (image : Mat Vec3b) (dst : Mat Z) : Mat Z :=
  let hsv_image := mat_map (cuda_cvtColor L) image in
  (* hsv_channels: split off and never read *)
  let dst := create (rows image) (cols image) dst in
  let dst := setTo 0%Z dst in
  (* Green slice *)
  let range_mask := cv_utils_inRange hsv_image green_lower green_upper in
  let dst := bitwise_or dst range_mask in
  (* Upper red slice *)
  let range_mask := cv_utils_inRange hsv_image red1_lower red1_upper in
  let dst := bitwise_or dst range_mask in
  (* Lower red slice *)
  let range_mask := cv_utils_inRange hsv_image red2_lower red2_upper in
  bitwise_or dst range_mask.

(** [dst] is the caller's matrix on entry; the result is [dst] on exit.
    The closing [ROS_ASSERT (dst.channels () == 1)] holds by the type of
    the mask. *)
Definition thresholdFrame (image : Mat Vec3b) (dst : Mat Z) : Mat Z :=
  let dst := hsv_slices image dst in
  morphology_open L (morphology_size settings_)
                  (morphology_iterations settings_) dst.

(** *** boundMask *)

(** The four running extremes of the inner loop; the loop state is
    [None] while [have_point] is false (the extremes are not yet set). *)
Record Extents : Type := mkExtents {
  rect_min_x : Q;
  rect_max_x : Q;
  rect_min_y : Q;
  rect_max_y : Q
}.

(** One iteration of the loop over the points of a contour. *)
Definition project_point (evector0 evector1 : Vector2d)
           (st : option Extents) (point : Point) : option Extents :=
  let p : Vector2d := (inject_Z (fst point), inject_Z (snd point)) in
  let dx := dot evector0 p in
  let dy := dot evector1 p in
  match st with
  | None => Some (mkExtents dx dx dy dy)
  | Some e =>
      Some (mkExtents
              (if Qltb dx (rect_min_x e) then dx else rect_min_x e)
              (if Qltb (rect_max_x e) dx then dx else rect_max_x e)
              (if Qltb dy (rect_min_y e) then dy else rect_min_y e)
              (if Qltb (rect_max_y e) dy then dy else rect_max_y e))
  end.

(** Lines 131-183: the rectangle fitted to one contour, [None] when the
    contour has no point (the source throws there). *)
Definition fitRect (mom : Moments) (contour : Contour) : option RotatedRect :=
  let covariance := mkMatrix2d (nu20 mom) (nu11 mom) (nu11 mom) (nu02 mom) in
  let '(evector0, evector1) := eigenvectors L covariance in
  match fold_left (project_point evector0 evector1) contour None with
  | None => None
  | Some e =>
      let center :=
        vadd (vscale ((rect_max_x e + rect_min_x e) / 2) evector0)
             (vscale ((rect_max_y e + rect_min_y e) / 2) evector1) in
      Some (mkRotatedRect
              center
              (rect_max_x e - rect_min_x e)
              (rect_max_y e - rect_min_y e)
              (- atan2 L (fst evector1) (snd evector1) * 180 / M_PI))
  end.

(** Line 129: the area test that skips a contour. *)
Definition area_rejected (mom : Moments) : bool :=
  Qltb (m00 mom) 2000 || Qltb 15000 (m00 mom).

(** Lines 185-186: the side-ratio test that skips a rectangle. *)
Definition aspect_rejected (rect : RotatedRect) : bool :=
  Qltb (size_width rect * 4) (size_height rect)
  || Qltb (size_height rect * 4) (size_width rect).

(** The loop of lines 126-190 over the contours still to visit. *)
Fixpoint boundMask_loop (contours : list Contour) : M unit :=
  match contours with
  | [] => ret tt
  | contour :: rest =>
      let mom := moments L contour in
      if area_rejected mom then boundMask_loop rest
      else
        match fitRect mom contour with
        | None => throw "Empty contour"
        | Some rect =>
            if aspect_rejected rect then boundMask_loop rest
            else push_back rect ;;; boundMask_loop rest
        end
  end.

Definition boundMask (mask : Mat Z) : M unit :=
  let mask_cpu := mask in
  let contours := findContours L mask_cpu in
  when (debug_contours settings_)
       (publish (Publish_contours (rows mask) (cols mask) contours)) ;;;
  put_rects [] ;;;
  boundMask_loop contours.

(** *** checkCorners *)

(** Modelled from the spec: which pixels a rotated sampling window
    covers.  This belongs to [cv_utils::sumPatch], whose definition is
    not among the sources, and the spec names the window's pixel
    footprint without fixing a rasterisation rule; the rule is a
    parameter of the model.  Points are [(x, y)] = (column, row). *)
Variable footprint : RotatedRect -> list Point.

(** A point that addresses a pixel of the frame. *)
Definition in_frame (image : Mat Vec3b) (p : Point) : bool :=
  (0 <=? fst p)%Z && (fst p <? Z.of_nat (cols image))%Z &&
  (0 <=? snd p)%Z && (snd p <? Z.of_nat (rows image))%Z.

(** The footprint after clipping the window to the frame. *)
Definition clipped_footprint (image : Mat Vec3b) (window : RotatedRect)
  : list Point :=
  filter (in_frame image) (footprint window).

Definition pixel_at (image : Mat Vec3b) (p : Point) : Vec3b :=
  match mat_get image (Z.to_nat (snd p)) (Z.to_nat (fst p)) with
  | Some px => px
  | None => (0, 0, 0)%Z
  end.

Definition vec3_add (acc : Vec3d) (px : Vec3b) : Vec3d :=
  let '(a0, a1, a2) := acc in
  let '(p0, p1, p2) := px in
  (a0 + inject_Z p0, a1 + inject_Z p1, a2 + inject_Z p2).

(** Channel-wise mean of a list of raw colours. *)
Definition average (pxs : list Vec3b) : Vec3d :=
  let '(s0, s1, s2) := fold_left vec3_add pxs (0, 0, 0) in
  let n := inject_Z (Z.of_nat (length pxs)) in
  (s0 / n, s1 / n, s2 / n).

(** Modelled from the spec: [cv_utils::sumPatch], declared in
    [iarc7_vision/cv_utils.hpp]; its definition is not among the
    sources.  The spec: the raw colour averaged over the window's pixel
    footprint, the window clipped to the frame first.  The function
    returns a [cv::Vec3d] in every case; for a window with no pixel left
    the model returns the zero vector, the value of an empty sum. *)
Definition sumPatch (image : Mat Vec3b) (window : RotatedRect) : Vec3d :=
  match clipped_footprint image window with
  | [] => (0, 0, 0)
  | pts => average (map (pixel_at image) pts)
  end.

(** [float scale = 0.2]. *)
Definition scale : Q := 2 # 10.

(** Line 202 and line 216: the window for loop indices [i], [j]. *)
Definition window_at (rect : RotatedRect) (i j : Z) : RotatedRect :=
  let rads := angle rect * M_PI / 180 in
  let offset_x :=
    vscale (size_width rect * (1 - scale) / 2) (cos L rads, sin L rads) in
  let offset_y :=
    vscale (size_height rect * (1 - scale) / 2) (- sin L rads, cos L rads) in
  mkRotatedRect
    (vadd (vadd (center rect) (vscale (inject_Z i) offset_x))
          (vscale (inject_Z j) offset_y))
    (size_width rect * scale)
    (size_height rect * scale)
    (angle rect).

(** Lines 219-221: the colour that the ranges are tested on; the
    assignment to a [Vec3b] saturates each channel to 8 bits. *)
Definition patch_hsv (image : Mat Vec3b) (window : RotatedRect) : Vec3b :=
  let '(s0, s1, s2) := sumPatch image window in
  let patch_sum_mat : Vec3b :=
    (saturate_uchar s0, saturate_uchar s1, saturate_uchar s2) in
  cvtColor L patch_sum_mat.

(** Lines 217-257 on the 1x1 matrices: [patch_good_mat.at (0, 0)]. *)
Definition patch_good (image : Mat Vec3b) (window : RotatedRect) : Z :=
  let hsv := patch_hsv image window in
  let patch_good_mat := 0%Z in
  (* Green slice *)
  let patch_good_mat :=
    Z.lor patch_good_mat (cv_inRange_px green_lower green_upper hsv) in
  (* Upper red slice *)
  let patch_good_mat :=
    Z.lor patch_good_mat (cv_inRange_px red1_lower red1_upper hsv) in
  (* Lower red slice *)
  Z.lor patch_good_mat (cv_inRange_px red2_lower red2_upper hsv).

Definition list_set {A} (l : list A) (n : nat) (v : A) : list A :=
  firstn n l ++ match skipn n l with [] => [] | _ :: t => v :: t end.

(** [m.at (r, c) = v]. *)
Definition mat_set {A} (m : Mat A) (r c : nat) (v : A) : Mat A :=
  match nth_error m r with
  | Some row => list_set m r (list_set row c v)
  | None => m
  end.

(** [m.at<uchar> (r, c)]. *)
Definition mat_at (m : Mat Z) (r c : nat) : Z := nth c (nth r m []) 0%Z.

(** The values [for (int k = -1; k != 3; k += 2)] runs through. *)
Definition loop_indices : list Z := [-1; 1]%Z.

(** Lines 212-262: the 2x2 matrix [corners] after both loops. *)
Definition corners_of (image : Mat Vec3b) (rect : RotatedRect) : Mat Z :=
  fold_left
    (fun corners i =>
       fold_left
         (fun corners j =>
            mat_set corners
                    (Z.to_nat (Z.quot (i + 1) 2)) (Z.to_nat (Z.quot (j + 1) 2))
                    (patch_good image (window_at rect i j)))
         loop_indices corners)
    loop_indices (zeros 2 2).

(** A [uchar] used as a condition. *)
Definition truthy (v : Z) : bool := negb (v =? 0)%Z.

(** Lines 264-267: the condition under which the angle is turned. *)
Definition flip_condition (corners : Mat Z) : bool :=
  negb (truthy (mat_at corners 0 0))
  && negb (truthy (mat_at corners 0 1))
  && truthy (mat_at corners 1 0)
  && truthy (mat_at corners 1 1).

(** The body of the loop over [rects], lines 202-270. *)
Definition checkCorners_rect (image : Mat Vec3b) (rect : RotatedRect)
  : RotatedRect :=
  let corners := corners_of image rect in
  if flip_condition corners then
    let angle1 := angle rect + 180 in
    mkRotatedRect (center rect) (size_width rect) (size_height rect)
                  (fmod angle1 360)
  else rect.

Definition checkCorners (image : Mat Vec3b) : M unit :=
  rects <- get_rects ;;
  put_rects (map (checkCorners_rect image) rects).

(** *** detect *)

Definition detect (image : Mat Vec3b) : M unit :=
  let mask := thresholdFrame image [] in
  when (debug_hsv_slice settings_) (publish (Publish_hsv_slice mask)) ;;;
  boundMask mask ;;;
  checkCorners image.

End Detector.

(** ** A reference library for running the detector

    Concrete functions for the fields of [Library], used to evaluate the
    detector on synthetic frames.  The theorems below hold for every
    library; these instances only serve the worked examples. *)

Module Reference.

(** 8-bit RGB to HSV by the formulas of the OpenCV documentation:
    V = max, S = 255 (V - min) / V, H = 60 (difference) / (V - min) plus
    the sector offset, halved to fit 8 bits. *)
Definition rgb2hsv (px : Vec3b) : Vec3b :=
  let '(r, g, b) := px in
  let v := Z.max r (Z.max g b) in
  let mn := Z.min r (Z.min g b) in
  let d := inject_Z (v - mn) in
  let s := if (v =? 0)%Z then 0 else 255 * d / inject_Z v in
  let h :=
    if (v =? mn)%Z then 0
    else if (v =? r)%Z then 60 * inject_Z (g - b) / d
    else if (v =? g)%Z then 120 + 60 * inject_Z (b - r) / d
    else 240 + 60 * inject_Z (r - g) / d in
  let h := if Qltb h 0 then h + 360 else h in
  (saturate_uchar (h / 2), saturate_uchar s, v).

(** Erosion (with [Z.min]) or dilation (with [Z.max]) by a [k] x [k]
    rectangle anchored at its centre; cells outside the matrix do not
    take part. *)
Definition neighbourhood (k : Z) : list Z :=
  map (fun d => (Z.of_nat d - Z.quot k 2)%Z) (seq 0 (Z.to_nat k)).

Definition morph (op : Z -> Z -> Z) (k : Z) (m : Mat Z) : Mat Z :=
  map (fun r =>
         map (fun c =>
                let here := nth c (nth r m []) 0%Z in
                fold_left
                  (fun acc dr =>
                     fold_left
                       (fun acc dc =>
                          let r' := (Z.of_nat r + dr)%Z in
                          let c' := (Z.of_nat c + dc)%Z in
                          if (0 <=? r')%Z && (0 <=? c')%Z then
                            match mat_get m (Z.to_nat r') (Z.to_nat c') with
                            | Some v => op acc v
                            | None => acc
                            end
                          else acc)
                       (neighbourhood k) acc)
                  (neighbourhood k) here)
             (seq 0 (cols m)))
      (seq 0 (rows m)).

Definition open (k iterations : Z) (m : Mat Z) : Mat Z :=
  let n := Z.to_nat iterations in
  Nat.iter n (morph Z.max k) (Nat.iter n (morph Z.min k) m).

(** Outer contour of a mask that holds one filled axis-aligned
    rectangle: the four corners of the box around the set pixels, as
    CHAIN_APPROX_SIMPLE keeps them; no contour for an all-zero mask. *)
Definition set_pixels (m : Mat Z) : list Point :=
  flat_map
    (fun r =>
       flat_map
         (fun c =>
            if truthy (mat_at m r c) then [(Z.of_nat c, Z.of_nat r)] else [])
         (seq 0 (cols m)))
    (seq 0 (rows m)).

Definition box_contours (m : Mat Z) : list Contour :=
  match set_pixels m with
  | [] => []
  | p :: ps =>
      let x0 := fold_left Z.min (map fst ps) (fst p) in
      let x1 := fold_left Z.max (map fst ps) (fst p) in
      let y0 := fold_left Z.min (map snd ps) (snd p) in
      let y1 := fold_left Z.max (map snd ps) (snd p) in
      [[(x0, y0); (x0, y1); (x1, y1); (x1, y0)]]
  end.

(** Moments of a polygon by Green's formula; all fields are zero for a
    contour without points, as [cv::moments] returns them. *)
Definition edges (c : Contour) : list (Point * Point) :=
  match c with
  | [] => []
  | p :: ps => combine c (ps ++ [p])
  end.

Definition polygon_moments (c : Contour) : Moments :=
  let q := inject_Z in
  let sum (f : Q -> Q -> Q -> Q -> Q) : Q :=
    fold_left
      (fun acc e =>
         let '((x0, y0), (x1, y1)) := e in
         acc + f (q x0) (q y0) (q x1) (q y1) * (q x0 * q y1 - q x1 * q y0))
      (edges c) 0 in
  let a00 := sum (fun _ _ _ _ => 1) / 2 in
  let sgn := if Qltb a00 0 then - (1) else 1 in
  let a00 := sgn * a00 in
  let a10 := sgn * sum (fun x0 _ x1 _ => x0 + x1) / 6 in
  let a01 := sgn * sum (fun _ y0 _ y1 => y0 + y1) / 6 in
  let a20 := sgn * sum (fun x0 _ x1 _ => x0 * x0 + x0 * x1 + x1 * x1) / 12 in
  let a02 := sgn * sum (fun _ y0 _ y1 => y0 * y0 + y0 * y1 + y1 * y1) / 12 in
  let a11 :=
    sgn * sum (fun x0 y0 x1 y1 =>
                 x0 * y1 + 2 * x0 * y0 + 2 * x1 * y1 + x1 * y0) / 24 in
  let mu20 := a20 - a10 * a10 / a00 in
  let mu02 := a02 - a01 * a01 / a00 in
  let mu11 := a11 - a10 * a01 / a00 in
  let s2 := a00 * a00 in
  mkMoments a00 (mu20 / s2) (mu11 / s2) (mu02 / s2).

(** Eigenvectors of a diagonal symmetric matrix, the smaller eigenvalue
    first: the coordinate axes.  The off-diagonal entry is not looked
    at, so the result is exact only for axis-aligned shapes. *)
Definition axis_eigenvectors (m : Matrix2d) : Vector2d * Vector2d :=
  if Qle_bool (c00 m) (c11 m) then ((1, 0), (0, 1)) else ((0, 1), (1, 0)).

(** [atan2], exact on the four half-axes (where the [double] result is
    [0], [M_PI / 2], [M_PI] or [- M_PI / 2]) and the middle of the
    quadrant elsewhere. *)
Definition coarse_atan2 (y x : Q) : Q :=
  if Qeq_bool y 0 then (if Qltb x 0 then M_PI else 0)
  else if Qeq_bool x 0 then (if Qltb y 0 then - M_PI / 2 else M_PI / 2)
  else if Qltb 0 y then (if Qltb 0 x then M_PI / 4 else 3 * M_PI / 4)
  else (if Qltb 0 x then - M_PI / 4 else - (3) * M_PI / 4).

(** Cosine and sine by their Taylor polynomials of degree 12 and 13,
    the result rounded to a multiple of 2^-40. *)
Definition round40 (q : Q) : Q :=
  Qred (inject_Z (Qfloor (q * inject_Z (2 ^ 40) + (1 # 2))) / inject_Z (2 ^ 40)).

Definition taylor_cos (x : Q) : Q :=
  let t := Qred (x * x) in
  let step (k : Q) (acc : Q) : Q := Qred (1 - t / k * acc) in
  round40 (step 2 (step 12 (step 30 (step 56 (step 90 (step 132 1)))))).

Definition taylor_sin (x : Q) : Q :=
  let t := Qred (x * x) in
  let step (k : Q) (acc : Q) : Q := Qred (1 - t / k * acc) in
  round40 (x * step 6 (step 20 (step 42 (step 72 (step 110 (step 156 1)))))).

Definition lib : Library :=
  mkLibrary rgb2hsv rgb2hsv open box_contours polygon_moments
            axis_eigenvectors coarse_atan2 taylor_cos taylor_sin
            (fun _ _ => 205%Z).

(** The pixels whose centre lies in the rotated window: the point is
    projected on the two axes of the window. *)
Definition centre_footprint (w : RotatedRect) : list Point :=
  let rads := angle w * M_PI / 180 in
  let u : Vector2d := (taylor_cos rads, taylor_sin rads) in
  let v : Vector2d := (- taylor_sin rads, taylor_cos rads) in
  let mid : Vector2d := (Qred (fst (center w)), Qred (snd (center w))) in
  let half_w := Qred (size_width w / 2) in
  let half_h := Qred (size_height w / 2) in
  let reach := Qceiling (half_w + half_h) in
  let cx := Qfloor (fst mid) in
  let cy := Qfloor (snd mid) in
  let span := map (fun d => (Z.of_nat d - reach)%Z)
                  (seq 0 (Z.to_nat (2 * reach + 2))) in
  flat_map
    (fun dy =>
       flat_map
         (fun dx =>
            let p : Vector2d :=
              (inject_Z (cx + dx) - fst mid, inject_Z (cy + dy) - snd mid) in
            let a := dot u p in
            let b := dot v p in
            if Qle_bool (- half_w) a && Qle_bool a half_w
               && Qle_bool (- half_h) b && Qle_bool b half_h
            then [((cx + dx)%Z, (cy + dy)%Z)] else [])
         span)
    span.

(** A frame given by a function of (column, row). *)
Definition frame (height width : nat) (f : Z -> Z -> Vec3b) : Mat Vec3b :=
  map (fun r => map (fun c => f (Z.of_nat c) (Z.of_nat r)) (seq 0 width))
      (seq 0 height).

Definition green : Vec3b := (0, 255, 0)%Z.
Definition black : Vec3b := (0, 0, 0)%Z.

(** Hue 50-70 for green, 0-10 and 170-180 for red, saturation and value
    from 100; a 1x1 opening; no debug output. *)
Definition settings : RoombaEstimatorSettings :=
  mkSettings 0 0 0 0 0 0 0 0
             50 70 0 10 170 180 100 255 100 255
             1 1 0 false false false.

Definition empty_heap : Heap := mkHeap [] [].

(** [lib] with [findContours] answering a fixed list of contours. *)
Definition with_contours (cs : list Contour) : Library :=
  mkLibrary rgb2hsv rgb2hsv open (fun _ => cs) polygon_moments
            axis_eigenvectors coarse_atan2 taylor_cos taylor_sin
            (fun _ _ => 205%Z).


(** A 20x20 frame and a 10x10 rectangle at its middle with angle 0: the
    four sampling windows are 2x2 and centred at (6,6), (6,14), (14,6)
    and (14,14). *)
Definition square : RotatedRect := mkRotatedRect (10, 10) 10 10 0.

(** Green on the quadrants that hold the corners (i,j) = (-1,1) and
    (1,-1), black on the other diagonal. *)
Definition anti_diagonal_frame : Mat Vec3b :=
  frame 20 20 (fun x y => if Bool.eqb (x <? 10)%Z (y <? 10)%Z
                          then black else green).

(** Green on the quadrants that hold the corners (-1,-1) and (1,1). *)
Definition main_diagonal_frame : Mat Vec3b :=
  frame 20 20 (fun x y => if Bool.eqb (x <? 10)%Z (y <? 10)%Z
                          then green else black).

(** Green on the half that holds the corners (1,-1) and (1,1). *)
Definition high_side_frame : Mat Vec3b :=
  frame 20 20 (fun x y => if (x <? 10)%Z then black else green).

(** A rectangle whose four windows all lie outside a 20x20 frame. *)
Definition far_away : RotatedRect := mkRotatedRect (1000, 1000) 10 10 0.

(** An 80x160 frame with a green 100x50 rectangle, columns 30..129 and
    rows 20..69. *)
Definition wide_frame : Mat Vec3b :=
  frame 80 160 (fun x y => if (30 <=? x)%Z && (x <? 130)%Z
                              && (20 <=? y)%Z && (y <? 70)%Z
                           then green else black).

(** Contours of a 100x50 box, of a small 9x9 box, of a large 199x199
    box and of a thin 450x10 box. *)
Definition box_100_50 : Contour := [(0, 0); (0, 50); (100, 50); (100, 0)]%Z.
Definition box_9_9 : Contour := [(0, 0); (0, 9); (9, 9); (9, 0)]%Z.
Definition box_199_199 : Contour := [(0, 0); (0, 199); (199, 199); (199, 0)]%Z.
Definition box_450_10 : Contour := [(0, 0); (0, 10); (450, 10); (450, 0)]%Z.

Definition fitted (c : Contour) : RotatedRect :=
  match fitRect lib (moments lib c) c with
  | Some rect => rect
  | None => mkRotatedRect (0, 0) 0 0 0
  end.

End Reference.


(** ** Auxiliary definitions for the statements *)

(** The three range tests at one pixel, ORed as the source does. *)
Definition slice_value (s : RoombaEstimatorSettings) (hsv : Vec3b) : Z :=
  Z.lor (Z.lor (cv_inRange_px (green_lower s) (green_upper s) hsv)
               (cv_inRange_px (red1_lower s) (red1_upper s) hsv))
        (cv_inRange_px (red2_lower s) (red2_upper s) hsv).

(** ** What [boundMask] keeps *)

(** What one contour contributes to the vector when the loop gets past
    it: its fitted rectangle if both tests let it through. *)
Definition kept_rect (L : Library) (contour : Contour) : list RotatedRect :=
  if area_rejected (moments L contour) then []
  else match fitRect L (moments L contour) contour with
       | Some rect => if aspect_rejected rect then [] else [rect]
       | None => []
       end.

(** The contours at which the loop throws: no point, area in the band. *)
Definition stops_loop (L : Library) (contour : Contour) : bool :=
  negb (area_rejected (moments L contour))
  && match contour with [] => true | _ :: _ => false end.

(** The images [detect] sends, in order. *)
Definition debug_images (L : Library) (s : RoombaEstimatorSettings)
           (image : Mat Vec3b) : list Event :=
  let mask := thresholdFrame L s image [] in
  (if debug_hsv_slice s then [Publish_hsv_slice mask] else [])
  ++ (if debug_contours s
      then [Publish_contours (rows mask) (cols mask) (findContours L mask)]
      else []).

(** The coordinate of a contour point along an axis, as the inner loop
    of [boundMask] computes [dx] and [dy]. *)
Definition proj (axis : Vector2d) (point : Point) : Q :=
  dot axis (inject_Z (fst point), inject_Z (snd point)).

(** The covariance matrix of lines 131-135. *)
Definition covariance_of (mom : Moments) : Matrix2d :=
  mkMatrix2d (nu20 mom) (nu11 mom) (nu11 mom) (nu02 mom).

(** ** The vision node ([src/src/VisionNode.cpp]) *)

Module VisionNode.

(** *** The image queue of [main], lines 343-384 *)

Section ImageQueue.

(** [sensor_msgs::Image::ConstPtr]. *)
Variable Message : Type.

(** What the loop body does besides changing the queue. *)
Inductive Action : Type :=
| ROS_ERROR_too_many (images : Z)
| gridline_estimator_update (message : Message)
| optical_flow_estimator_update (message : Message).

Record LoopState : Type := mkLoopState {
  message_queue : list Message;
  actions : list Action
}.

(** [static_cast<int>] of a size: the value modulo 2^32, as a signed
    32-bit integer. *)
Definition static_cast_int (n : nat) : Z :=
  ((Z.of_nat n + 2 ^ 31) mod 2 ^ 32 - 2 ^ 31)%Z.

(** The subscriber callback, lines 346-349. *)
Definition handler (message : Message) (st : LoopState) : LoopState :=
  mkLoopState (message_queue st ++ [message]) (actions st).

(** Lines 361-380: the body of the main loop before [spinOnce]. *)
Definition process_queue (message_queue_item_limit : Z) (st : LoopState)
  : LoopState :=
  match message_queue st with
  | [] => st
  | front :: others =>
      if (static_cast_int (length (message_queue st))
          >? message_queue_item_limit)%Z
      then
        let message := last (message_queue st) front in
        mkLoopState
          []
          (actions st
           ++ [ROS_ERROR_too_many (static_cast_int (length (message_queue st)));
               gridline_estimator_update message;
               optical_flow_estimator_update message])
      else
        let message := front in
        mkLoopState
          others
          (actions st
           ++ [gridline_estimator_update message;
               optical_flow_estimator_update message])
  end.

(** [ros::spinOnce ()] with the images that arrived since the last call. *)
Definition spinOnce (arrived : list Message) (st : LoopState) : LoopState :=
  fold_left (fun st message => handler message st) arrived st.

(** One turn of [while (ros::ok ())]. *)
Definition main_loop_turn (message_queue_item_limit : Z)
           (st : LoopState) (arrived : list Message) : LoopState :=
  spinOnce arrived (process_queue message_queue_item_limit st).

(** As many turns as there are batches of arrivals. *)
Definition main_loop (message_queue_item_limit : Z)
           (arrivals : list (list Message)) (st : LoopState) : LoopState :=
  fold_left (main_loop_turn message_queue_item_limit) arrivals st.

(** The two estimator calls made for one image. *)
Definition updates_for (message : Message) : list Action :=
  [gridline_estimator_update message; optical_flow_estimator_update message].

(** The images that were given to the estimators, oldest first. *)
Definition processed (done : list Action) : list Message :=
  flat_map (fun a => match a with
                     | gridline_estimator_update message => [message]
                     | _ => []
                     end) done.

(** [Subseq a b]: [a] is [b] with some elements left out, the order
    kept. *)
Inductive Subseq : list Message -> list Message -> Prop :=
| Subseq_nil : Subseq [] []
| Subseq_skip (x : Message) (a b : list Message) :
    Subseq a b -> Subseq a (x :: b)
| Subseq_take (x : Message) (a b : list Message) :
    Subseq a b -> Subseq (x :: a) (x :: b).

End ImageQueue.

Arguments ROS_ERROR_too_many {Message}.
Arguments gridline_estimator_update {Message}.
Arguments optical_flow_estimator_update {Message}.
Arguments mkLoopState {Message}.
Arguments message_queue {Message}.
Arguments actions {Message}.
Arguments handler {Message}.
Arguments process_queue {Message}.
Arguments spinOnce {Message}.
Arguments main_loop_turn {Message}.
Arguments main_loop {Message}.
Arguments updates_for {Message}.
Arguments processed {Message}.
Arguments Subseq {Message}.

End VisionNode.

(** ** Settings for the further examples *)

Module Scenario.

(** Saturation from 200 down to 100: an inverted range. *)
Definition inverted_saturation : RoombaEstimatorSettings :=
  mkSettings 0 0 0 0 0 0 0 0
             50 70 0 10 170 180 200 100 100 255
             1 1 0 false false false.

(** Both debug images switched on. *)
Definition debugging : RoombaEstimatorSettings :=
  mkSettings 0 0 0 0 0 0 0 0
             50 70 0 10 170 180 100 255 100 255
             1 1 0 true true false.

End Scenario.

(** * Properties *)

(** ** Arithmetic of the idealised floating values *)

Lemma Qltb_lt (a b : Q) : Qltb a b = true <-> a < b.
Proof.
  unfold Qltb. rewrite negb_true_iff.
  split; intro H.
  - apply Qnot_le_lt. intro Hle. apply Qle_bool_iff in Hle. congruence.
  - destruct (Qle_bool b a) eqn:E; [|reflexivity].
    apply Qle_bool_iff in E. exfalso. apply (Qlt_not_le _ _ H E).
Qed.

Lemma Qltb_ge (a b : Q) : Qltb a b = false <-> b <= a.
Proof.
  unfold Qltb. rewrite negb_false_iff. apply Qle_bool_iff.
Qed.


Lemma Qtrunc_floor (q : Q) : 0 <= q -> Qtrunc q = Qfloor q.
Proof.
  intro H. unfold Qtrunc. destruct q as [n d]. simpl.
  apply Z.quot_div_nonneg; [|lia].
  unfold Qle in H. simpl in H. lia.
Qed.

(** For a non-negative dividend [fmod] lands in [[0, y)]. *)
Lemma fmod_range (x y : Q) :
  0 <= x -> 0 < y -> 0 <= fmod x y /\ fmod x y < y.
Proof.
  intros Hx Hy. unfold fmod.
  assert (Hq : 0 <= x / y) by (apply Qle_shift_div_l; lra).
  rewrite (Qtrunc_floor _ Hq).
  pose proof (Qfloor_le (x / y)) as Hlo.
  pose proof (Qlt_floor (x / y)) as Hhi.
  rewrite inject_Z_plus in Hhi.
  set (f := inject_Z (Qfloor (x / y))) in *.
  assert (E : x == (x / y) * y) by (field; lra).
  apply (Qmult_le_compat_r _ _ y) in Hlo; [|lra].
  apply (Qmult_lt_compat_r _ _ y) in Hhi; [|lra].
  rewrite <- E in Hlo, Hhi.
  clear E Hq. clearbody f. change (inject_Z 1) with 1 in Hhi.
  split; nra.
Qed.

(** Radians in [[-pi, pi]] become degrees in [[-180, 180]]. *)
Lemma degrees_range (a : Q) :
  - M_PI <= a -> a <= M_PI ->
  - (180) <= - a * 180 / M_PI /\ - a * 180 / M_PI <= 180.
Proof.
  intros Hlo Hhi.
  assert (Hpi : 0 < M_PI) by reflexivity.
  split.
  - apply Qle_shift_div_l; [exact Hpi | lra].
  - apply Qle_shift_div_r; [exact Hpi | lra].
Qed.

(** ** Matrices *)

Lemma zipWith_map_r {A B C} (f : A -> B -> C) (g : A -> B) (xs : list A) :
  zipWith f xs (map g xs) = map (fun x => f x (g x)) xs.
Proof. induction xs as [|x xs IH]; simpl; [reflexivity | now rewrite IH]. Qed.

Lemma zipWith_map_map {A B C D} (f : B -> C -> D) (g : A -> B) (k : A -> C)
      (xs : list A) :
  zipWith f (map g xs) (map k xs) = map (fun x => f (g x) (k x)) xs.
Proof. induction xs as [|x xs IH]; simpl; [reflexivity | now rewrite IH]. Qed.

Lemma zipWith_zero_row {A} (g : A -> Z) (c : nat) (xs : list A) :
  length xs = c -> zipWith Z.lor (repeat 0%Z c) (map g xs) = map g xs.
Proof.
  revert c; induction xs as [|x xs IH]; intros c Hc; subst c; simpl.
  - reflexivity.
  - now rewrite IH.
Qed.

Lemma zeros_or_map {A} (g : A -> Z) (c : nat) (m : Mat A) :
  forallb (fun row => Nat.eqb (length row) c) m = true ->
  bitwise_or (zeros (length m) c) (mat_map g m) = mat_map g m.
Proof.
  unfold bitwise_or, mat_zipWith, zeros, mat_map.
  induction m as [|row m IH]; simpl; intro H; [reflexivity|].
  apply andb_true_iff in H as [Hrow Hm].
  apply Nat.eqb_eq in Hrow.
  rewrite zipWith_zero_row by exact Hrow.
  now rewrite IH.
Qed.

Lemma or_map_map {A} (g k : A -> Z) (m : Mat A) :
  bitwise_or (mat_map g m) (mat_map k m) = mat_map (fun x => Z.lor (g x) (k x)) m.
Proof.
  unfold bitwise_or, mat_zipWith, mat_map.
  induction m as [|row m IH]; simpl; [reflexivity|].
  now rewrite zipWith_map_map, IH.
Qed.

Lemma mat_get_map {A B} (f : A -> B) (m : Mat A) (r c : nat) :
  mat_get (mat_map f m) r c = option_map f (mat_get m r c).
Proof.
  unfold mat_get, mat_map.
  rewrite nth_error_map.
  destruct (nth_error m r) as [row|]; simpl; [|reflexivity].
  now rewrite nth_error_map.
Qed.

Lemma setTo_has_size {A} (v : A) (r c : nat) (m : Mat A) :
  has_size r c m = true -> setTo v m = repeat (repeat v c) r.
Proof.
  unfold has_size, setTo, mat_map. intro H.
  apply andb_true_iff in H as [Hr Hc]. apply Nat.eqb_eq in Hr. subst r.
  induction m as [|row m IH]; simpl in *; [reflexivity|].
  apply andb_true_iff in Hc as [Hrow Hm]. apply Nat.eqb_eq in Hrow.
  rewrite IH by exact Hm. f_equal.
  subst c. clear. induction row; simpl; [reflexivity | now f_equal].
Qed.

Lemma map_const_seq {A} (v : A) (start n : nat) :
  map (fun _ => v) (seq start n) = repeat v n.
Proof.
  revert start; induction n; intro start; simpl; [reflexivity | now rewrite IHn].
Qed.

(** After [create] and [setTo 0] the matrix is the zero matrix of the
    requested size, whatever it held before. *)
Lemma setTo_create (L : Library) (r c : nat) (dst : Mat Z) :
  setTo 0%Z (create L r c dst) = zeros r c.
Proof.
  unfold create. destruct (has_size r c dst) eqn:E.
  - now apply setTo_has_size.
  - unfold setTo, mat_map, zeros. rewrite map_map.
    erewrite map_ext; [apply map_const_seq|].
    intro i. simpl. rewrite map_map. apply map_const_seq.
Qed.

Lemma hsv_slices_zero_based (L : Library) (s : RoombaEstimatorSettings)
      (image : Mat Vec3b) (dst : Mat Z) :
  hsv_slices L s image dst = hsv_slices L s image [].
Proof.
  unfold hsv_slices. now rewrite !setTo_create.
Qed.

Lemma slice_value_nonzero (s : RoombaEstimatorSettings) (hsv : Vec3b) :
  slice_value s hsv <> 0%Z <->
  in_bounds (green_lower s) (green_upper s) hsv = true
  \/ in_bounds (red1_lower s) (red1_upper s) hsv = true
  \/ in_bounds (red2_lower s) (red2_upper s) hsv = true.
Proof.
  unfold slice_value, cv_inRange_px.
  destruct (in_bounds (green_lower s) (green_upper s) hsv);
    destruct (in_bounds (red1_lower s) (red1_upper s) hsv);
    destruct (in_bounds (red2_lower s) (red2_upper s) hsv);
    simpl; intuition (try discriminate; try congruence).
Qed.

(** Ranges 0..255 on all three channels admit every 8-bit colour, so
    with them a corner is marker-coloured whatever colour was sampled. *)
Lemma full_ranges_admit_every_colour (s : RoombaEstimatorSettings) (hsv : Vec3b) :
  green_lower s = (0, 0, 0)%Z -> green_upper s = (255, 255, 255)%Z ->
  (0 <= fst (fst hsv) <= 255)%Z ->
  (0 <= snd (fst hsv) <= 255)%Z ->
  (0 <= snd hsv <= 255)%Z ->
  slice_value s hsv <> 0%Z.
Proof.
  intros Hlo Hhi H0 H1 H2. apply slice_value_nonzero. left.
  rewrite Hlo, Hhi. destruct hsv as [[a b] c]. simpl in *.
  repeat (apply andb_true_iff; split); apply Z.leb_le; lia.
Qed.

Lemma hsv_slices_pointwise (L : Library) (s : RoombaEstimatorSettings)
      (image : Mat Vec3b) (dst : Mat Z) :
  rectangular image = true ->
  hsv_slices L s image dst =
  mat_map (fun px => slice_value s (cuda_cvtColor L px)) image.
Proof.
  intro Hrect. unfold hsv_slices. rewrite setTo_create.
  unfold cv_utils_inRange, rows.
  assert (Hlen : length image = length (mat_map (cuda_cvtColor L) image))
    by (unfold mat_map; now rewrite length_map).
  rewrite Hlen at 1.
  rewrite zeros_or_map.
  - rewrite !or_map_map. unfold mat_map. rewrite map_map.
    apply map_ext. intro row. rewrite map_map. reflexivity.
  - unfold rectangular, has_size in Hrect.
    apply andb_true_iff in Hrect as [_ Hc].
    unfold mat_map. rewrite forallb_forall in *.
    intros row Hin. apply in_map_iff in Hin as [row0 [<- Hin0]].
    rewrite length_map. now apply Hc.
Qed.

(** ** The colour mask *)

(** C7: before the morphological opening, the mask pixel at a position of
    the frame is set exactly when the HSV value of the frame pixel passes
    at least one of the three inclusive range tests (green, upper red,
    lower red, each with the shared saturation and value bounds). *)
Theorem C7_mask_pixel_is_or_of_three_ranges
        (L : Library) (s : RoombaEstimatorSettings)
        (image : Mat Vec3b) (dst : Mat Z) (r c : nat) (px : Vec3b) :
  rectangular image = true ->
  mat_get image r c = Some px ->
  exists v : Z,
    mat_get (hsv_slices L s image dst) r c = Some v
    /\ (v <> 0%Z <->
        in_bounds (green_lower s) (green_upper s) (cuda_cvtColor L px) = true
        \/ in_bounds (red1_lower s) (red1_upper s) (cuda_cvtColor L px) = true
        \/ in_bounds (red2_lower s) (red2_upper s) (cuda_cvtColor L px) = true).
Proof.
  intros Hrect Hpx.
  exists (slice_value s (cuda_cvtColor L px)). split.
  - rewrite hsv_slices_pointwise by exact Hrect.
    rewrite mat_get_map, Hpx. reflexivity.
  - apply slice_value_nonzero.
Qed.

(** C9: the mask returned by [thresholdFrame] does not depend on what the
    output matrix held on entry; in particular calling it again on the
    matrix the previous call filled returns the same mask. *)
Theorem C9_thresholdFrame_repeatable
        (L : Library) (s : RoombaEstimatorSettings) (image : Mat Vec3b) :
  (forall dst dst' : Mat Z,
      thresholdFrame L s image dst = thresholdFrame L s image dst')
  /\ (forall dst : Mat Z,
         thresholdFrame L s image (thresholdFrame L s image dst)
         = thresholdFrame L s image dst).
Proof.
  assert (H : forall dst dst' : Mat Z,
             thresholdFrame L s image dst = thresholdFrame L s image dst').
  { intros dst dst'. unfold thresholdFrame.
    now rewrite (hsv_slices_zero_based L s image dst),
                (hsv_slices_zero_based L s image dst'). }
  split; [exact H | intro dst; apply H].
Qed.

(** ** Blob extraction *)

Section BoundMask.

Variable L : Library.


Lemma area_accepted_iff (mom : Moments) :
  area_rejected mom = false <-> 2000 <= m00 mom /\ m00 mom <= 15000.
Proof.
  unfold area_rejected. rewrite orb_false_iff, !Qltb_ge. reflexivity.
Qed.

(** One turn of the loop, with the monad unfolded. *)
Lemma boundMask_loop_cons (contour : Contour) (rest : list Contour) (h : Heap) :
  boundMask_loop L (contour :: rest) h =
  if area_rejected (moments L contour) then boundMask_loop L rest h
  else
    match fitRect L (moments L contour) contour with
    | None => (Throw "Empty contour", h)
    | Some rect =>
        if aspect_rejected rect then boundMask_loop L rest h
        else boundMask_loop L rest
               (mkHeap (bounding_rects h ++ [rect]) (published h))
    end.
Proof.
  simpl.
  destruct (area_rejected (moments L contour)); [reflexivity|].
  destruct (fitRect L (moments L contour) contour) as [rect|]; [|reflexivity].
  destruct (aspect_rejected rect); reflexivity.
Qed.

Lemma project_points_some (e0 e1 : Vector2d) (pts : list Point) (e : Extents) :
  exists e', fold_left (project_point e0 e1) pts (Some e) = Some e'.
Proof.
  revert e; induction pts as [|p pts IH]; intro e; simpl.
  - now exists e.
  - apply IH.
Qed.

Lemma fitRect_nil (mom : Moments) : fitRect L mom [] = None.
Proof.
  unfold fitRect. destruct (eigenvectors L _) as [e0 e1]. reflexivity.
Qed.

Lemma fitRect_cons (mom : Moments) (p : Point) (pts : list Point) :
  exists rect, fitRect L mom (p :: pts) = Some rect.
Proof.
  unfold fitRect. destruct (eigenvectors L _) as [e0 e1]. simpl.
  destruct (project_points_some e0 e1 pts
              (mkExtents (dot e0 (inject_Z (fst p), inject_Z (snd p)))
                         (dot e0 (inject_Z (fst p), inject_Z (snd p)))
                         (dot e1 (inject_Z (fst p), inject_Z (snd p)))
                         (dot e1 (inject_Z (fst p), inject_Z (snd p)))))
    as [e' He'].
  rewrite He'. eexists. reflexivity.
Qed.

Lemma fitRect_angle (mom : Moments) (contour : Contour) (rect : RotatedRect) :
  fitRect L mom contour = Some rect ->
  exists y x : Q, angle rect = - atan2 L y x * 180 / M_PI.
Proof.
  unfold fitRect. destruct (eigenvectors L _) as [e0 e1].
  destruct (fold_left _ contour None) as [e|]; [|discriminate].
  intro H. inversion H; subst; clear H. simpl. eauto.
Qed.

(** A property of every fitted rectangle holds for every rectangle in the
    vector when the loop stops, normally or by the exception. *)
Lemma boundMask_loop_Forall (P : RotatedRect -> Prop) :
  (forall mom contour rect, fitRect L mom contour = Some rect -> P rect) ->
  forall (contours : list Contour) (h : Heap),
    Forall P (bounding_rects h) ->
    Forall P (bounding_rects (snd (boundMask_loop L contours h))).
Proof.
  intros HP contours.
  induction contours as [|c rest IH]; intros h Hh.
  - exact Hh.
  - rewrite boundMask_loop_cons.
    destruct (area_rejected (moments L c)); [now apply IH|].
    destruct (fitRect L (moments L c) c) as [rect|] eqn:Hfit; [|exact Hh].
    destruct (aspect_rejected rect); [now apply IH|].
    apply IH. simpl. apply Forall_app. split; [exact Hh|].
    constructor; [|constructor]. eapply HP; eassumption.
Qed.

(** The loop never touches the debug topics. *)
Lemma boundMask_loop_published (contours : list Contour) (h : Heap) :
  published (snd (boundMask_loop L contours h)) = published h.
Proof.
  revert h; induction contours as [|c rest IH]; intro h.
  - reflexivity.
  - rewrite boundMask_loop_cons.
    destruct (area_rejected (moments L c)); [apply IH|].
    destruct (fitRect L (moments L c) c) as [rect|]; [|reflexivity].
    destruct (aspect_rejected rect); [apply IH|].
    rewrite IH. reflexivity.
Qed.

End BoundMask.

(** The loop throws exactly when some contour has no point and passes
    the area test. *)
Lemma boundMask_loop_throws_iff (L : Library) (contours : list Contour) (h : Heap) :
  fst (boundMask_loop L contours h) = Throw "Empty contour" <->
  Exists (fun c => c = [] /\ area_rejected (moments L c) = false) contours.
Proof.
  revert h. induction contours as [|c rest IH]; intro h.
  - simpl. split; [discriminate | intro H; inversion H].
  - rewrite boundMask_loop_cons, Exists_cons.
    destruct (area_rejected (moments L c)) eqn:Harea.
    + rewrite IH. split; [now right|].
      intros [[_ Hc] | Hrest]; [discriminate | exact Hrest].
    + destruct c as [|p pts].
      * rewrite fitRect_nil. simpl. split; [now left | reflexivity].
      * destruct (fitRect_cons L (moments L (p :: pts)) p pts) as [rect ->].
        destruct (aspect_rejected rect); rewrite IH;
          (split; [now right|]);
          (intros [[Hc _] | Hrest]; [discriminate | exact Hrest]).
Qed.

(** C2 (as amended): a contour without points never yields a rectangle.
    When its area moment lies in the band 2000..15000 the loop stops with
    the exception "Empty contour" and the vector as it was; when the area
    moment lies outside the band the contour is skipped by the area test
    and the loop goes on with the vector as it was, with no error.  Over
    a whole list of contours the exception is raised exactly when some
    contour has no point and an area moment in the band. *)
Theorem C2_empty_contour_throws_only_inside_area_band
        (L : Library) (rest : list Contour) (h : Heap) :
  boundMask_loop L ([] :: rest) h =
  (if area_rejected (moments L [])
   then boundMask_loop L rest h
   else (Throw "Empty contour", h))
  /\
  (forall contours : list Contour,
      fst (boundMask_loop L contours h) = Throw "Empty contour" <->
      Exists (fun c => c = []
                       /\ 2000 <= m00 (moments L c)
                       /\ m00 (moments L c) <= 15000) contours).
Proof.
  split.
  - rewrite boundMask_loop_cons, fitRect_nil. reflexivity.
  - intro contours. rewrite boundMask_loop_throws_iff.
    rewrite !Exists_exists.
    split; intros [c [Hin [Hc Ha]]]; exists c; (split; [exact Hin|]);
      (split; [exact Hc|]); now apply area_accepted_iff.
Qed.



(** C10: [boundMask] and [detect] leave the same vector, the same topics
    and the same outcome whatever the caller's vector held on entry. *)
Theorem C10_output_vector_overwritten
        (L : Library) (s : RoombaEstimatorSettings)
        (footprint : RotatedRect -> list Point)
        (v v' : list RotatedRect) (log : list Event) :
  (forall mask : Mat Z,
      boundMask L s mask (mkHeap v log) = boundMask L s mask (mkHeap v' log))
  /\
  (forall image : Mat Vec3b,
      detect L s footprint image (mkHeap v log)
      = detect L s footprint image (mkHeap v' log)).
Proof.
  assert (H : forall mask : Mat Z,
             boundMask L s mask (mkHeap v log)
             = boundMask L s mask (mkHeap v' log)).
  { intro mask. unfold boundMask, bind, when, publish, put_rects, ret.
    destruct (debug_contours s); reflexivity. }
  split; [exact H|].
  intro image.
  unfold detect, boundMask, bind, when, publish, put_rects, ret.
  destruct (debug_hsv_slice s), (debug_contours s); reflexivity.
Qed.

(** ** Orientation resolution *)

Section CheckCorners.

Variable L : Library.
Variable s : RoombaEstimatorSettings.
Variable footprint : RotatedRect -> list Point.

(** The 2x2 matrix after the two loops, entry by entry. *)
Lemma corners_fold (g : Z -> Z -> Z) :
  fold_left
    (fun corners i =>
       fold_left
         (fun corners j =>
            mat_set corners
                    (Z.to_nat (Z.quot (i + 1) 2)) (Z.to_nat (Z.quot (j + 1) 2))
                    (g i j))
         loop_indices corners)
    loop_indices (zeros 2 2)
  = [[g (-1) (-1); g (-1) 1]; [g 1 (-1); g 1 1]]%Z.
Proof. reflexivity. Qed.

Lemma corners_of_entries (image : Mat Vec3b) (rect : RotatedRect) :
  corners_of L s footprint image rect =
  [[patch_good L s footprint image (window_at L rect (-1) (-1));
    patch_good L s footprint image (window_at L rect (-1) 1)];
   [patch_good L s footprint image (window_at L rect 1 (-1));
    patch_good L s footprint image (window_at L rect 1 1)]]%Z.
Proof.
  unfold corners_of.
  exact (corners_fold
           (fun i j => patch_good L s footprint image (window_at L rect i j))).
Qed.

Lemma patch_good_slice_value (image : Mat Vec3b) (window : RotatedRect) :
  patch_good L s footprint image window
  = slice_value s (patch_hsv L footprint image window).
Proof. reflexivity. Qed.

Lemma checkCorners_rect_frame (image : Mat Vec3b) (rect : RotatedRect) :
  center (checkCorners_rect L s footprint image rect) = center rect
  /\ size_width (checkCorners_rect L s footprint image rect) = size_width rect
  /\ size_height (checkCorners_rect L s footprint image rect) = size_height rect
  /\ (angle (checkCorners_rect L s footprint image rect) = angle rect
      \/ angle (checkCorners_rect L s footprint image rect)
         = fmod (angle rect + 180) 360).
Proof.
  unfold checkCorners_rect.
  destruct (flip_condition (corners_of L s footprint image rect)); simpl; auto.
Qed.

(** Turning keeps an angle of [[-180, 180]] in [[-180, 360)]. *)
Lemma checkCorners_rect_angle (image : Mat Vec3b) (rect : RotatedRect) :
  - (180) <= angle rect /\ angle rect <= 180 ->
  - (180) <= angle (checkCorners_rect L s footprint image rect)
  /\ angle (checkCorners_rect L s footprint image rect) < 360.
Proof.
  intros [Hlo Hhi]. unfold checkCorners_rect.
  destruct (flip_condition (corners_of L s footprint image rect)); simpl.
  - destruct (fmod_range (angle rect + 180) 360) as [H0 H1]; lra.
  - lra.
Qed.

(** The stage is the loop body applied to each element in place. *)
Lemma checkCorners_map (image : Mat Vec3b) (h : Heap) :
  checkCorners L s footprint image h =
  (Ret tt,
   mkHeap (map (checkCorners_rect L s footprint image) (bounding_rects h))
          (published h)).
Proof. reflexivity. Qed.

End CheckCorners.

(** C1 (as amended): for each rectangle that [checkCorners] visits (by
    [checkCorners_map], each element of the vector) the angle is replaced
    by [fmod (angle + 180, 360)] exactly when the two corners on the negative side of the width axis
    (loop index i = -1, both values of j) are both not marker-coloured
    and the two corners on the positive side (i = 1) are both
    marker-coloured; for any other four booleans the angle is kept. *)
Theorem C1_flip_when_low_side_clear_and_high_side_marked
        (L : Library) (s : RoombaEstimatorSettings)
        (footprint : RotatedRect -> list Point)
        (image : Mat Vec3b) (rect : RotatedRect) :
  angle (checkCorners_rect L s footprint image rect) =
  if negb (truthy (patch_good L s footprint image (window_at L rect (-1) (-1))))
     && negb (truthy (patch_good L s footprint image (window_at L rect (-1) 1)))
     && truthy (patch_good L s footprint image (window_at L rect 1 (-1)))
     && truthy (patch_good L s footprint image (window_at L rect 1 1))
  then fmod (angle rect + 180) 360
  else angle rect.
Proof.
  unfold checkCorners_rect, flip_condition.
  rewrite corners_of_entries. unfold mat_at. simpl nth.
  destruct (negb _ && negb _ && _ && _); reflexivity.
Qed.

(** C6: [checkCorners] ends normally and leaves a vector of the same
    length whose rectangles are, position by position, the ones it was
    given: centre and size are the same and the angle is the same or is
    [fmod (angle + 180, 360)].  The debug topics are not touched. *)
Theorem C6_checkCorners_only_turns_angles
        (L : Library) (s : RoombaEstimatorSettings)
        (footprint : RotatedRect -> list Point)
        (image : Mat Vec3b) (h : Heap) :
  exists rects' : list RotatedRect,
    checkCorners L s footprint image h = (Ret tt, mkHeap rects' (published h))
    /\ length rects' = length (bounding_rects h)
    /\ Forall2
         (fun r r' =>
            center r' = center r
            /\ size_width r' = size_width r
            /\ size_height r' = size_height r
            /\ (angle r' = angle r \/ angle r' = fmod (angle r + 180) 360))
         (bounding_rects h) rects'.
Proof.
  exists (map (checkCorners_rect L s footprint image) (bounding_rects h)).
  split; [apply checkCorners_map|]. split; [apply length_map|].
  induction (bounding_rects h) as [|r rs IH]; simpl; constructor.
  - apply checkCorners_rect_frame.
  - exact IH.
Qed.


(** ** The whole pipeline *)

Lemma boundMask_angles (L : Library) (s : RoombaEstimatorSettings)
      (mask : Mat Z) (h : Heap) :
  atan2_in_range L ->
  Forall (fun r => - (180) <= angle r /\ angle r <= 180)
         (bounding_rects (snd (boundMask L s mask h))).
Proof.
  intro Hatan.
  assert (Hloop : forall h0 : Heap,
             bounding_rects h0 = [] ->
             Forall (fun r => - (180) <= angle r /\ angle r <= 180)
                    (bounding_rects
                       (snd (boundMask_loop L (findContours L mask) h0)))).
  { intros h0 Hh0. apply boundMask_loop_Forall.
    - intros mom contour rect Hfit.
      destruct (fitRect_angle L mom contour rect Hfit) as [y [x ->]].
      destruct (Hatan y x) as [Hlo Hhi]. now apply degrees_range.
    - rewrite Hh0. constructor. }
  unfold boundMask, bind, when, publish, put_rects, ret.
  destruct (debug_contours s); apply Hloop; reflexivity.
Qed.

Lemma detect_unfold (L : Library) (s : RoombaEstimatorSettings)
      (footprint : RotatedRect -> list Point) (image : Mat Vec3b) (h : Heap) :
  exists h1 : Heap,
    detect L s footprint image h =
    match boundMask L s (thresholdFrame L s image []) h1 with
    | (Ret _, h2) =>
        (Ret tt,
         mkHeap (map (checkCorners_rect L s footprint image) (bounding_rects h2))
                (published h2))
    | (Throw w, h2) => (Throw w, h2)
    end.
Proof.
  unfold detect, bind, when.
  destruct (debug_hsv_slice s).
  - exists (mkHeap (bounding_rects h)
                   (published h
                    ++ [Publish_hsv_slice (thresholdFrame L s image [])])).
    unfold publish at 1. cbv beta iota.
    destruct (boundMask L s _ _) as [[u|w] h2]; reflexivity.
  - exists h. unfold ret at 1. cbv beta iota.
    destruct (boundMask L s _ _) as [[u|w] h2]; reflexivity.
Qed.

(** C3 (as amended): with [atan2] in [[-pi, pi]], every rectangle that
    [boundMask] leaves in the vector has its angle in [[-180, 180]], and
    every rectangle that [detect] leaves there has its angle in
    [[-180, 360)]. *)
Theorem C3_angles_between_minus_180_and_360
        (L : Library) (s : RoombaEstimatorSettings)
        (footprint : RotatedRect -> list Point) (h : Heap) :
  atan2_in_range L ->
  (forall mask : Mat Z,
      Forall (fun r => - (180) <= angle r /\ angle r <= 180)
             (bounding_rects (snd (boundMask L s mask h))))
  /\
  (forall image : Mat Vec3b,
      Forall (fun r => - (180) <= angle r /\ angle r < 360)
             (bounding_rects (snd (detect L s footprint image h)))).
Proof.
  intro Hatan. split.
  - intro mask. now apply boundMask_angles.
  - intro image.
    destruct (detect_unfold L s footprint image h) as [h1 ->].
    pose proof (boundMask_angles L s (thresholdFrame L s image []) h1 Hatan)
      as Hb.
    destruct (boundMask L s (thresholdFrame L s image []) h1) as [[u|w] h2];
      simpl in *.
    + apply Forall_map. eapply Forall_impl; [|exact Hb].
      intros r Hr. now apply checkCorners_rect_angle.
    + eapply Forall_impl; [|exact Hb]. intros r [Hlo Hhi]. split; lra.
Qed.

(** * Worked examples *)

Import Reference.

(** The reference [atan2] keeps to [[-pi, pi]]. *)
Lemma coarse_atan2_in_range : atan2_in_range lib.
Proof.
  intros y x. change (atan2 lib y x) with (coarse_atan2 y x).
  unfold coarse_atan2.
  repeat match goal with
         | |- context [if ?b then _ else _] => destruct b
         end; split; unfold Qle; vm_compute; discriminate.
Qed.

(** Counterexample to C1 as stated.  On [anti_diagonal_frame] the
    corners (-1,-1) and (1,1) are not marker-coloured and the corners
    (-1,1) and (1,-1) are, yet the angle stays 0; it also stays 0 with
    the diagonals exchanged.  On [high_side_frame] no diagonal pair is of
    one colour, and the angle becomes 180. *)
Lemma C1_diagonal_painting_does_not_turn :
  map (map truthy)
      (corners_of lib settings centre_footprint anti_diagonal_frame square)
  = [[false; true]; [true; false]]
  /\ angle (checkCorners_rect lib settings centre_footprint
                              anti_diagonal_frame square)
     = angle square
  /\ map (map truthy)
         (corners_of lib settings centre_footprint main_diagonal_frame square)
     = [[true; false]; [false; true]]
  /\ angle (checkCorners_rect lib settings centre_footprint
                              main_diagonal_frame square)
     = angle square
  /\ map (map truthy)
         (corners_of lib settings centre_footprint high_side_frame square)
     = [[false; false]; [true; true]]
  /\ angle (checkCorners_rect lib settings centre_footprint
                              high_side_frame square)
     = 180.
Proof. vm_compute. repeat split; reflexivity. Qed.

(** Counterexample to C2 as stated: [cv::moments] of a contour without
    points has area 0, the area test skips the contour, and [boundMask]
    ends normally with an empty vector. *)
Lemma C2_empty_contour_is_skipped_silently :
  findContours (with_contours [[]]) [] = [[]]
  /\ boundMask (with_contours [[]]) settings [] empty_heap
     = (Ret tt, mkHeap [] []).
Proof. vm_compute. split; reflexivity. Qed.

(** Counterexample to C3 as stated: for the wide green rectangle of
    [wide_frame] the second eigenvector is the x axis, [atan2 (1, 0)] is
    [M_PI / 2], and the rectangle leaves [boundMask] and [detect] with
    the angle -90. *)
Lemma C3_wide_rectangle_has_negative_angle :
  fst (detect lib settings centre_footprint wide_frame empty_heap) = Ret tt
  /\ ~ Forall (fun r => 0 <= angle r /\ angle r < 360)
         (bounding_rects
            (snd (boundMask lib settings
                            (thresholdFrame lib settings wide_frame [])
                            empty_heap)))
  /\ ~ Forall (fun r => 0 <= angle r /\ angle r < 360)
         (bounding_rects
            (snd (detect lib settings centre_footprint wide_frame empty_heap))).
Proof.
  assert (Hneg : forall l : list RotatedRect,
             existsb (fun r => Qltb (angle r) 0) l = true ->
             ~ Forall (fun r => 0 <= angle r /\ angle r < 360) l).
  { intros l E H. apply existsb_exists in E as [r [Hin Hr]].
    rewrite Forall_forall in H. destruct (H r Hin) as [H0 _].
    apply Qltb_lt in Hr. lra. }
  split; [vm_compute; reflexivity|].
  split; apply Hneg; vm_compute; reflexivity.
Qed.

(** The amended C3 on the same frame. *)
Lemma C3_wide_rectangle_angle_in_range :
  Forall (fun r => - (180) <= angle r /\ angle r < 360)
         (bounding_rects
            (snd (detect lib settings centre_footprint wide_frame empty_heap))).
Proof.
  exact (proj2 (C3_angles_between_minus_180_and_360
                  lib settings centre_footprint empty_heap
                  coarse_atan2_in_range)
               wide_frame).
Defined.

(** The 9x9 box is below the band, the 199x199 box above it, and the
    450x10 box has a side ratio of 45: none reaches the vector. *)
Example small_large_and_thin_boxes_rejected :
  boundMask_loop lib [box_9_9; box_199_199; box_450_10] empty_heap
  = (Ret tt, empty_heap).
Proof. vm_compute. reflexivity. Qed.

(** The 100x50 box passes both tests. *)
Example plate_sized_box_emitted :
  boundMask_loop lib [box_100_50] empty_heap
  = (Ret tt, mkHeap [fitted box_100_50] []).
Proof. vm_compute. reflexivity. Qed.


(** C7 at row 14, column 6 of [anti_diagonal_frame], a green pixel. *)
Lemma C7_green_pixel :
  exists v : Z,
    mat_get (hsv_slices lib settings anti_diagonal_frame []) 14 6 = Some v
    /\ (v <> 0%Z <->
        in_bounds (green_lower settings) (green_upper settings)
                  (cuda_cvtColor lib green) = true
        \/ in_bounds (red1_lower settings) (red1_upper settings)
                     (cuda_cvtColor lib green) = true
        \/ in_bounds (red2_lower settings) (red2_upper settings)
                     (cuda_cvtColor lib green) = true).
Proof.
  apply (C7_mask_pixel_is_or_of_three_ranges
           lib settings anti_diagonal_frame [] 14 6 green).
  - vm_compute. reflexivity.
  - vm_compute. reflexivity.
Defined.


(** With the ranges of [settings], which exclude black, the same corner
    is not marker-coloured. *)
Example empty_window_with_usual_ranges :
  truthy (patch_good lib settings centre_footprint anti_diagonal_frame
                     (window_at lib far_away 1 1)) = false.
Proof. vm_compute. reflexivity. Qed.

(** * Further properties of the detector *)

(** ** What [boundMask] leaves in the vector *)

Lemma heap_eta (h : Heap) : mkHeap (bounding_rects h) (published h) = h.
Proof. destruct h; reflexivity. Qed.

Lemma boundMask_loop_step (L : Library) (c : Contour) (rest : list Contour)
      (h : Heap) :
  stops_loop L c = false ->
  boundMask_loop L (c :: rest) h =
  boundMask_loop L rest
    (mkHeap (bounding_rects h ++ kept_rect L c) (published h)).
Proof.
  intro Hc. rewrite boundMask_loop_cons. unfold stops_loop in Hc. unfold kept_rect.
  destruct (area_rejected (moments L c)) eqn:Harea.
  - now rewrite app_nil_r, heap_eta.
  - destruct c as [|p pts]; [discriminate|].
    destruct (fitRect_cons L (moments L (p :: pts)) p pts) as [rect ->].
    destruct (aspect_rejected rect); [|reflexivity].
    now rewrite app_nil_r, heap_eta.
Qed.

Lemma boundMask_loop_prefix (L : Library) (pre rest : list Contour) (h : Heap) :
  forallb (fun c => negb (stops_loop L c)) pre = true ->
  boundMask_loop L (pre ++ rest) h =
  boundMask_loop L rest
    (mkHeap (bounding_rects h ++ flat_map (kept_rect L) pre) (published h)).
Proof.
  revert h. induction pre as [|c pre IH]; intros h Hpre; simpl in *.
  - now rewrite app_nil_r, heap_eta.
  - apply andb_true_iff in Hpre as [Hc Hpre]. apply negb_true_iff in Hc.
    change (boundMask_loop L (c :: pre ++ rest) h =
            boundMask_loop L rest
              (mkHeap (bounding_rects h ++ kept_rect L c ++ flat_map (kept_rect L) pre)
                      (published h))).
    rewrite (boundMask_loop_step L c (pre ++ rest) h Hc).
    rewrite IH by exact Hpre. simpl. now rewrite app_assoc.
Qed.

Lemma boundMask_loop_kept (L : Library) (contours : list Contour) (h : Heap) :
  forallb (fun c => negb (stops_loop L c)) contours = true ->
  boundMask_loop L contours h =
  (Ret tt,
   mkHeap (bounding_rects h ++ flat_map (kept_rect L) contours) (published h)).
Proof.
  intro H.
  rewrite <- (app_nil_r contours) at 1.
  now rewrite (boundMask_loop_prefix L contours [] h H).
Qed.

(** With moments that give an empty contour an area outside the band
    (as [cv::moments] does: area 0), no contour stops the loop. *)
Lemma nothing_stops_loop (L : Library) (contours : list Contour) :
  area_rejected (moments L []) = true ->
  forallb (fun c => negb (stops_loop L c)) contours = true.
Proof.
  intro H. apply forallb_forall. intros c _. unfold stops_loop.
  destruct c as [|p pts].
  - now rewrite H.
  - now rewrite andb_false_r.
Qed.

(** ** The pipeline as a composition *)

Lemma boundMask_unfold (L : Library) (s : RoombaEstimatorSettings)
      (mask : Mat Z) (h : Heap) :
  boundMask L s mask h =
  boundMask_loop L (findContours L mask)
    (mkHeap []
            (published h
             ++ (if debug_contours s
                 then [Publish_contours (rows mask) (cols mask)
                                        (findContours L mask)]
                 else []))).
Proof.
  unfold boundMask, bind, when, publish, put_rects, ret.
  destruct (debug_contours s); simpl; [reflexivity|].
  now rewrite app_nil_r.
Qed.

(** X1: when the moments of an empty contour have an area outside the
    band (as [cv::moments] gives: area 0), [boundMask] never throws: it
    ends normally with a vector that holds, in contour order, the fitted
    rectangle of each contour that passes the area test and the
    side-ratio test, and nothing else; the contours image is the only
    thing it may publish. *)
Theorem boundMask_returns_kept_rects
        (L : Library) (s : RoombaEstimatorSettings) (mask : Mat Z) (h : Heap) :
  area_rejected (moments L []) = true ->
  boundMask L s mask h =
  (Ret tt,
   mkHeap (flat_map (kept_rect L) (findContours L mask))
          (published h
           ++ (if debug_contours s
               then [Publish_contours (rows mask) (cols mask)
                                      (findContours L mask)]
               else []))).
Proof.
  intro H. rewrite boundMask_unfold.
  now rewrite (boundMask_loop_kept L _ _ (nothing_stops_loop L _ H)).
Qed.

Lemma detect_as_stages (L : Library) (s : RoombaEstimatorSettings)
      (footprint : RotatedRect -> list Point) (image : Mat Vec3b) (h : Heap) :
  detect L s footprint image h =
  match boundMask_loop L (findContours L (thresholdFrame L s image []))
          (mkHeap [] (published h ++ debug_images L s image)) with
  | (Ret _, h2) =>
      (Ret tt,
       mkHeap (map (checkCorners_rect L s footprint image) (bounding_rects h2))
              (published h2))
  | (Throw w, h2) => (Throw w, h2)
  end.
Proof.
  unfold detect, bind at 1, when at 1, debug_images.
  destruct (debug_hsv_slice s).
  - unfold publish at 1. cbv beta iota. unfold bind at 1.
    rewrite boundMask_unfold. simpl published. rewrite <- app_assoc.
    destruct (boundMask_loop _ _ _) as [[u|w] h2]; reflexivity.
  - unfold ret at 1. cbv beta iota. unfold bind at 1.
    rewrite boundMask_unfold. simpl.
    destruct (boundMask_loop _ _ _) as [[u|w] h2]; reflexivity.
Qed.

(** X2: when the moments of an empty contour have an area outside the
    band (as [cv::moments] gives: area 0), [detect] never throws: the
    vector holds exactly the rectangles kept by [boundMask], each passed
    through the corner check, in contour order, and nothing of what the
    vector held before; the images sent are the mask and then the
    contours, each under its debug flag. *)
Theorem detect_is_corner_check_of_kept_rects
        (L : Library) (s : RoombaEstimatorSettings)
        (footprint : RotatedRect -> list Point) (image : Mat Vec3b) (h : Heap) :
  area_rejected (moments L []) = true ->
  detect L s footprint image h =
  (Ret tt,
   mkHeap (map (checkCorners_rect L s footprint image)
               (flat_map (kept_rect L)
                         (findContours L (thresholdFrame L s image []))))
          (published h ++ debug_images L s image)).
Proof.
  intro H. rewrite detect_as_stages.
  now rewrite (boundMask_loop_kept L _ _ (nothing_stops_loop L _ H)).
Qed.


(** ** The fitted rectangle *)

Section FitRect.

Variable L : Library.

Lemma fitRect_extents (mom : Moments) (contour : Contour) (rect : RotatedRect)
      (e0 e1 : Vector2d) :
  eigenvectors L (covariance_of mom) = (e0, e1) ->
  fitRect L mom contour = Some rect ->
  exists e : Extents,
    fold_left (project_point e0 e1) contour None = Some e
    /\ center rect =
       vadd (vscale ((rect_max_x e + rect_min_x e) / 2) e0)
            (vscale ((rect_max_y e + rect_min_y e) / 2) e1)
    /\ size_width rect = rect_max_x e - rect_min_x e
    /\ size_height rect = rect_max_y e - rect_min_y e.
Proof.
  unfold fitRect, covariance_of. intros -> H.
  destruct (fold_left (project_point e0 e1) contour None) as [e|];
    [|discriminate].
  exists e. inversion H; subst; clear H. simpl. auto.
Qed.

(** One point: the extremes widen just enough to take it in. *)
Lemma project_point_step (e0 e1 : Vector2d) (e : Extents) (p : Point) :
  exists e' : Extents,
    project_point e0 e1 (Some e) p = Some e'
    /\ (rect_min_x e' <= rect_min_x e /\ rect_max_x e <= rect_max_x e'
        /\ rect_min_y e' <= rect_min_y e /\ rect_max_y e <= rect_max_y e')
    /\ (rect_min_x e' <= proj e0 p /\ proj e0 p <= rect_max_x e'
        /\ rect_min_y e' <= proj e1 p /\ proj e1 p <= rect_max_y e')
    /\ (rect_min_x e' = rect_min_x e \/ rect_min_x e' = proj e0 p)
    /\ (rect_max_x e' = rect_max_x e \/ rect_max_x e' = proj e0 p)
    /\ (rect_min_y e' = rect_min_y e \/ rect_min_y e' = proj e1 p)
    /\ (rect_max_y e' = rect_max_y e \/ rect_max_y e' = proj e1 p).
Proof.
  eexists. split; [reflexivity|].
  fold (proj e0 p). fold (proj e1 p). simpl.
  destruct (Qltb (proj e0 p) (rect_min_x e)) eqn:E1;
    destruct (Qltb (rect_max_x e) (proj e0 p)) eqn:E2;
    destruct (Qltb (proj e1 p) (rect_min_y e)) eqn:E3;
    destruct (Qltb (rect_max_y e) (proj e1 p)) eqn:E4;
    try apply Qltb_lt in E1; try apply Qltb_ge in E1;
    try apply Qltb_lt in E2; try apply Qltb_ge in E2;
    try apply Qltb_lt in E3; try apply Qltb_ge in E3;
    try apply Qltb_lt in E4; try apply Qltb_ge in E4;
    repeat split; try lra; auto.
Qed.

Lemma seen_step (pts : list Point) (a b c : Q) (p : Point) (axis : Vector2d) :
  a = b \/ (exists q, In q pts /\ a = proj axis q) ->
  b = c \/ b = proj axis p ->
  a = c \/ exists q, In q (p :: pts) /\ a = proj axis q.
Proof.
  intros [Hab | [q [Hq Ha]]] Hb.
  - destruct Hb as [Hb | Hb]; [left; congruence|].
    right. exists p. split; [now left | congruence].
  - right. exists q. split; [now right | exact Ha].
Qed.

(** The running extremes only widen, enclose every point seen, and are
    values that were seen. *)
Lemma project_points_invariant (e0 e1 : Vector2d) (pts : list Point) :
  forall e e' : Extents,
    fold_left (project_point e0 e1) pts (Some e) = Some e' ->
    (rect_min_x e' <= rect_min_x e /\ rect_max_x e <= rect_max_x e'
     /\ rect_min_y e' <= rect_min_y e /\ rect_max_y e <= rect_max_y e')
    /\ (forall p, In p pts ->
          rect_min_x e' <= proj e0 p /\ proj e0 p <= rect_max_x e'
          /\ rect_min_y e' <= proj e1 p /\ proj e1 p <= rect_max_y e')
    /\ (rect_min_x e' = rect_min_x e
        \/ exists p, In p pts /\ rect_min_x e' = proj e0 p)
    /\ (rect_max_x e' = rect_max_x e
        \/ exists p, In p pts /\ rect_max_x e' = proj e0 p)
    /\ (rect_min_y e' = rect_min_y e
        \/ exists p, In p pts /\ rect_min_y e' = proj e1 p)
    /\ (rect_max_y e' = rect_max_y e
        \/ exists p, In p pts /\ rect_max_y e' = proj e1 p).
Proof.
  induction pts as [|p pts IH]; intros e e' H.
  - simpl in H. inversion H; subst; clear H.
    split; [repeat split; apply Qle_refl|].
    split; [intros q []|].
    repeat split; now left.
  - cbn [fold_left] in H.
    destruct (project_point_step e0 e1 e p)
      as [e1' [Hstep [[Sa [Sb [Sc Sd]]] [[Pa [Pb [Pc Pd]]] [S1 [S2 [S3 S4]]]]]]].
    rewrite Hstep in H. apply IH in H.
    destruct H as [[Ha [Hb [Hc Hd]]] [Hin [Hminx [Hmaxx [Hminy Hmaxy]]]]].
    split; [repeat split; lra|].
    split.
    { intros q [<- | Hq]; [repeat split; lra | now apply Hin]. }
    split; [exact (seen_step pts _ _ _ p e0 Hminx S1)|].
    split; [exact (seen_step pts _ _ _ p e0 Hmaxx S2)|].
    split; [exact (seen_step pts _ _ _ p e1 Hminy S3)|].
    exact (seen_step pts _ _ _ p e1 Hmaxy S4).
Qed.

(** X3: the sides of the fitted rectangle are the spreads of the contour
    along the two eigenvectors: no two contour points are further apart
    along an axis than the side, some two points are exactly that far
    apart, and so no side is negative. *)
Theorem fitRect_sides_are_projection_spreads
        (mom : Moments) (contour : Contour) (rect : RotatedRect)
        (e0 e1 : Vector2d) :
  eigenvectors L (covariance_of mom) = (e0, e1) ->
  fitRect L mom contour = Some rect ->
  (forall p q, In p contour -> In q contour ->
               proj e0 p - proj e0 q <= size_width rect
               /\ proj e1 p - proj e1 q <= size_height rect)
  /\ (exists p q, In p contour /\ In q contour
                  /\ size_width rect = proj e0 p - proj e0 q)
  /\ (exists p q, In p contour /\ In q contour
                  /\ size_height rect = proj e1 p - proj e1 q)
  /\ 0 <= size_width rect
  /\ 0 <= size_height rect.
Proof.
  intros He Hfit.
  destruct (fitRect_extents mom contour rect e0 e1 He Hfit)
    as [e [Hfold [_ [Hw Hh]]]].
  destruct contour as [|p0 pts]; [discriminate|].
  simpl in Hfold. fold (proj e0 p0) in Hfold. fold (proj e1 p0) in Hfold.
  apply project_points_invariant in Hfold. simpl in Hfold.
  destruct Hfold as [[Ha [Hb [Hc Hd]]] [Hin [Hminx [Hmaxx [Hminy Hmaxy]]]]].
  assert (Hall : forall p, In p (p0 :: pts) ->
            rect_min_x e <= proj e0 p /\ proj e0 p <= rect_max_x e
            /\ rect_min_y e <= proj e1 p /\ proj e1 p <= rect_max_y e).
  { intros p [<- | Hp]; [repeat split; assumption | now apply Hin]. }
  assert (Hat : forall (a : Q) (v : Q) (axis : Vector2d),
            a = v \/ (exists p, In p pts /\ a = proj axis p) ->
            v = proj axis p0 ->
            exists p, In p (p0 :: pts) /\ a = proj axis p).
  { intros a v axis [Hx | [p [Hp Hx]]] Hv.
    - exists p0. split; [now left | congruence].
    - exists p. split; [now right | exact Hx]. }
  destruct (Hat _ _ e0 Hminx eq_refl) as [qx [Hqx Eqx]].
  destruct (Hat _ _ e0 Hmaxx eq_refl) as [px [Hpx Epx]].
  destruct (Hat _ _ e1 Hminy eq_refl) as [qy [Hqy Eqy]].
  destruct (Hat _ _ e1 Hmaxy eq_refl) as [py [Hpy Epy]].
  rewrite Hw, Hh.
  split; [|split; [|split; [|split]]].
  - intros p q Hp Hq.
    destruct (Hall p Hp) as [? [? [? ?]]].
    destruct (Hall q Hq) as [? [? [? ?]]].
    split; lra.
  - exists px, qx. repeat split; try assumption. now rewrite Epx, Eqx.
  - exists py, qy. repeat split; try assumption. now rewrite Epy, Eqy.
  - destruct (Hall p0 (or_introl eq_refl)) as [? [? [? ?]]]. lra.
  - destruct (Hall p0 (or_introl eq_refl)) as [? [? [? ?]]]. lra.
Qed.

(** X4: when the two eigenvectors are orthonormal, every contour point
    lies inside the fitted rectangle taken in its own axes: along each
    eigenvector the point is at most half a side away from the centre. *)
Theorem fitRect_contains_contour
        (mom : Moments) (contour : Contour) (rect : RotatedRect)
        (e0 e1 : Vector2d) :
  eigenvectors L (covariance_of mom) = (e0, e1) ->
  dot e0 e0 == 1 -> dot e1 e1 == 1 -> dot e0 e1 == 0 ->
  fitRect L mom contour = Some rect ->
  forall p, In p contour ->
    - (size_width rect / 2) <= proj e0 p - dot e0 (center rect)
    /\ proj e0 p - dot e0 (center rect) <= size_width rect / 2
    /\ - (size_height rect / 2) <= proj e1 p - dot e1 (center rect)
    /\ proj e1 p - dot e1 (center rect) <= size_height rect / 2.
Proof.
  intros He H00 H11 H01 Hfit p Hp.
  destruct (fitRect_extents mom contour rect e0 e1 He Hfit)
    as [e [Hfold [Hcen [Hw Hh]]]].
  destruct contour as [|p0 pts]; [discriminate|].
  simpl in Hfold. fold (proj e0 p0) in Hfold. fold (proj e1 p0) in Hfold.
  apply project_points_invariant in Hfold. simpl in Hfold.
  destruct Hfold as [[Ha [Hb [Hc Hd]]] [Hin _]].
  assert (Hall : rect_min_x e <= proj e0 p /\ proj e0 p <= rect_max_x e
                 /\ rect_min_y e <= proj e1 p /\ proj e1 p <= rect_max_y e).
  { destruct Hp as [<- | Hp]; [repeat split; assumption | now apply Hin]. }
  set (mx := (rect_max_x e + rect_min_x e) / 2) in *.
  set (my := (rect_max_y e + rect_min_y e) / 2) in *.
  assert (H10 : dot e1 e0 == 0).
  { rewrite <- H01. unfold dot. ring. }
  assert (Hc0 : dot e0 (center rect) == mx).
  { rewrite Hcen.
    transitivity (mx * dot e0 e0 + my * dot e0 e1);
      [unfold dot, vadd, vscale; simpl; ring | rewrite H00, H01; ring]. }
  assert (Hc1 : dot e1 (center rect) == my).
  { rewrite Hcen.
    transitivity (mx * dot e1 e0 + my * dot e1 e1);
      [unfold dot, vadd, vscale; simpl; ring | rewrite H10, H11; ring]. }
  assert (Emx : mx * 2 == rect_max_x e + rect_min_x e)
    by (unfold mx; field).
  assert (Emy : my * 2 == rect_max_y e + rect_min_y e)
    by (unfold my; field).
  assert (Ew : size_width rect / 2 * 2 == rect_max_x e - rect_min_x e)
    by (rewrite Hw; field).
  assert (Eh : size_height rect / 2 * 2 == rect_max_y e - rect_min_y e)
    by (rewrite Hh; field).
  destruct Hall as [? [? [? ?]]].
  clearbody mx my.
  repeat split; lra.
Qed.

End FitRect.

(** ** The corner check *)





Lemma in_bounds_inverted (s : RoombaEstimatorSettings) (hlo hhi : Z)
      (hsv : Vec3b) :
  (hsv_slice_s_max s < hsv_slice_s_min s)%Z
  \/ (hsv_slice_v_max s < hsv_slice_v_min s)%Z ->
  in_bounds (hlo, hsv_slice_s_min s, hsv_slice_v_min s)
            (hhi, hsv_slice_s_max s, hsv_slice_v_max s) hsv = false.
Proof.
  intro H. destruct hsv as [[a b] c]. unfold in_bounds.
  destruct (hlo <=? a)%Z, (a <=? hhi)%Z; simpl; try reflexivity.
  destruct H as [H | H].
  - destruct (hsv_slice_s_min s <=? b)%Z eqn:E1; simpl; [|reflexivity].
    destruct (b <=? hsv_slice_s_max s)%Z eqn:E2; simpl; [|reflexivity].
    apply Z.leb_le in E1, E2. lia.
  - destruct (hsv_slice_s_min s <=? b)%Z; simpl; [|reflexivity].
    destruct (b <=? hsv_slice_s_max s)%Z; simpl; [|reflexivity].
    destruct (hsv_slice_v_min s <=? c)%Z eqn:E1; simpl; [|reflexivity].
    destruct (c <=? hsv_slice_v_max s)%Z eqn:E2; simpl; [|reflexivity].
    apply Z.leb_le in E1, E2. lia.
Qed.

Lemma slice_value_inverted (s : RoombaEstimatorSettings) (hsv : Vec3b) :
  (hsv_slice_s_max s < hsv_slice_s_min s)%Z
  \/ (hsv_slice_v_max s < hsv_slice_v_min s)%Z ->
  slice_value s hsv = 0%Z.
Proof.
  intro H. unfold slice_value, cv_inRange_px.
  unfold green_lower, green_upper, red1_lower, red1_upper, red2_lower, red2_upper.
  now rewrite !in_bounds_inverted.
Qed.

(** X6: settings whose saturation or value range is inverted (maximum
    below minimum) are not refused: no sampled colour is marker-coloured
    and [checkCorners] leaves the vector and the topics as they were. *)
Theorem inverted_range_disables_corner_check
        (L : Library) (s : RoombaEstimatorSettings)
        (footprint : RotatedRect -> list Point)
        (image : Mat Vec3b) (h : Heap) :
  (hsv_slice_s_max s < hsv_slice_s_min s)%Z
  \/ (hsv_slice_v_max s < hsv_slice_v_min s)%Z ->
  (forall window : RotatedRect,
      patch_good L s footprint image window = 0%Z)
  /\ checkCorners L s footprint image h = (Ret tt, h).
Proof.
  intro H.
  assert (Hgood : forall window : RotatedRect,
             patch_good L s footprint image window = 0%Z).
  { intro window. rewrite patch_good_slice_value.
    now apply slice_value_inverted. }
  split; [exact Hgood|].
  rewrite checkCorners_map.
  assert (Hid : forall rect,
             checkCorners_rect L s footprint image rect = rect).
  { intro rect. unfold checkCorners_rect, flip_condition.
    rewrite corners_of_entries. unfold mat_at. simpl nth.
    rewrite !Hgood. reflexivity. }
  rewrite (map_ext _ (fun r => r) Hid), map_id.
  now rewrite heap_eta.
Qed.


(** * Properties of the vision node *)

Module VisionNodeFacts.
Import VisionNode.

(** ** The image queue *)

Section QueueFacts.

Context {Message : Type}.

Lemma static_cast_int_small (n : nat) :
  (Z.of_nat n < 2 ^ 31)%Z -> static_cast_int n = Z.of_nat n.
Proof.
  intro H. unfold static_cast_int.
  rewrite Z.mod_small by lia. lia.
Qed.

Lemma process_queue_within_limit
      (limit : Z) (front : Message) (others : list Message)
      (done : list (Action Message)) :
  (Z.of_nat (length (front :: others)) < 2 ^ 31)%Z ->
  (Z.of_nat (length (front :: others)) <= limit)%Z ->
  process_queue limit (mkLoopState (front :: others) done)
  = mkLoopState others (done ++ updates_for front).
Proof.
  intros Hsmall H. unfold process_queue. cbn [message_queue actions].
  rewrite (static_cast_int_small _ Hsmall).
  destruct (Z.gtb_spec (Z.of_nat (length (front :: others))) limit);
    [lia | reflexivity].
Qed.

(** X7: the queue policy of the main loop, for a queue of fewer than
    2^31 images.  With at most [message_queue_item_limit] images waiting,
    the oldest is taken off and given to the grid-line estimator and then
    to the optical-flow estimator, and the others wait on in order.  With
    more than the limit waiting, an error is logged, only the newest
    image is given to the estimators and all the others are discarded. *)
Theorem process_queue_policy
        (limit : Z) (front : Message) (others : list Message)
        (done : list (Action Message)) :
  (Z.of_nat (length (front :: others)) < 2 ^ 31)%Z ->
  ((Z.of_nat (length (front :: others)) <= limit)%Z ->
   process_queue limit (mkLoopState (front :: others) done)
   = mkLoopState others (done ++ updates_for front))
  /\
  ((limit < Z.of_nat (length (front :: others)))%Z ->
   process_queue limit (mkLoopState (front :: others) done)
   = mkLoopState
       []
       (done
        ++ ROS_ERROR_too_many (Z.of_nat (length (front :: others)))
        :: updates_for (last others front))).
Proof.
  intro Hsmall. unfold process_queue. cbn [message_queue actions].
  rewrite (static_cast_int_small _ Hsmall).
  split; intro H.
  - destruct (Z.gtb_spec (Z.of_nat (length (front :: others))) limit);
      [lia | reflexivity].
  - destruct (Z.gtb_spec (Z.of_nat (length (front :: others))) limit);
      [|lia].
    destruct others; reflexivity.
Qed.

Lemma main_loop_idle_turn (limit : Z) (turns : list (list Message))
      (st : LoopState Message) :
  main_loop limit ([] :: turns) st
  = main_loop limit turns (process_queue limit st).
Proof. reflexivity. Qed.

(** X8: when no new image arrives and the queue holds at most
    [message_queue_item_limit] images (and fewer than 2^31), as many
    turns of the loop as there are images empty the queue and give every
    image, in order of arrival, to the grid-line estimator and then to
    the optical-flow estimator; no image is dropped and no error is
    logged. *)
Theorem main_loop_drains_queue_in_order
        (limit : Z) (queue : list Message) (done : list (Action Message)) :
  (Z.of_nat (length queue) < 2 ^ 31)%Z ->
  (Z.of_nat (length queue) <= limit)%Z ->
  main_loop limit (repeat [] (length queue)) (mkLoopState queue done)
  = mkLoopState [] (done ++ flat_map updates_for queue).
Proof.
  revert done. induction queue as [|front others IH]; intros done Hsmall Hlim.
  - simpl. now rewrite app_nil_r.
  - cbn [length repeat]. rewrite main_loop_idle_turn.
    rewrite (process_queue_within_limit limit front others done Hsmall Hlim).
    rewrite IH by (cbn [length] in *; lia).
    cbn [flat_map]. now rewrite app_assoc.
Qed.

Lemma spinOnce_appends (arrived : list Message) (st : LoopState Message) :
  spinOnce arrived st
  = mkLoopState (message_queue st ++ arrived) (actions st).
Proof.
  revert st. induction arrived as [|m arrived IH]; intro st.
  - simpl. rewrite app_nil_r. now destruct st.
  - cbn [spinOnce fold_left]. fold (spinOnce arrived (handler m st)).
    rewrite IH. unfold handler. cbn [message_queue actions].
    now rewrite <- app_assoc.
Qed.

Lemma Subseq_refl (l : list Message) : Subseq l l.
Proof.
  induction l; [apply Subseq_nil | now apply Subseq_take].
Qed.

Lemma Subseq_trans (a b c : list Message) :
  Subseq a b -> Subseq b c -> Subseq a c.
Proof.
  intros Hab Hbc. revert a Hab.
  induction Hbc as [|x b c Hbc IH|x b c Hbc IH]; intros a Hab.
  - exact Hab.
  - apply Subseq_skip. now apply IH.
  - inversion Hab; subst.
    + apply Subseq_skip. now apply IH.
    + apply Subseq_take. now apply IH.
Qed.

Lemma Subseq_app (a a' b b' : list Message) :
  Subseq a a' -> Subseq b b' -> Subseq (a ++ b) (a' ++ b').
Proof.
  intros Ha Hb.
  induction Ha; simpl;
    [assumption | now apply Subseq_skip | now apply Subseq_take].
Qed.

Lemma last_of_nonempty (l : list Message) (x d d' : Message) :
  last (x :: l) d = last (x :: l) d'.
Proof.
  revert x. induction l as [|y l IH]; intro x; [reflexivity|].
  change (last (y :: l) d = last (y :: l) d'). apply IH.
Qed.

Lemma Subseq_last (front : Message) (others : list Message) :
  Subseq [last (front :: others) front] (front :: others).
Proof.
  revert front. induction others as [|m others IH]; intro front.
  - simpl. apply Subseq_refl.
  - change (last (front :: m :: others) front) with (last (m :: others) front).
    apply Subseq_skip.
    rewrite (last_of_nonempty others m front m). apply IH.
Qed.

Lemma processed_app (a b : list (Action Message)) :
  processed (a ++ b) = processed a ++ processed b.
Proof. unfold processed. apply flat_map_app. Qed.

Lemma process_queue_keeps_order (limit : Z) (st : LoopState Message) :
  Subseq (processed (actions (process_queue limit st))
          ++ message_queue (process_queue limit st))
         (processed (actions st) ++ message_queue st).
Proof.
  unfold process_queue.
  destruct (message_queue st) as [|front others] eqn:E.
  - rewrite E. apply Subseq_refl.
  - destruct (static_cast_int (length (front :: others)) >? limit)%Z;
      cbn [actions message_queue]; rewrite processed_app.
    + rewrite app_nil_r. apply Subseq_app; [apply Subseq_refl|].
      apply Subseq_last.
    + rewrite <- app_assoc. apply Subseq_refl.
Qed.

(** X9: the main loop never reorders images.  After any number of
    turns, the images given to the estimators so far followed by the
    images still waiting are, in this order, a selection from the images
    in the order they arrived; this holds when the queue overflows and
    images are discarded, too. *)
Theorem main_loop_keeps_arrival_order
        (limit : Z) (arrivals : list (list Message)) (queue : list Message) :
  Subseq (processed (actions (main_loop limit arrivals (mkLoopState queue [])))
          ++ message_queue (main_loop limit arrivals (mkLoopState queue [])))
         (queue ++ concat arrivals).
Proof.
  assert (Hgen : forall (st : LoopState Message) (seen : list Message),
             Subseq (processed (actions st) ++ message_queue st) seen ->
             Subseq (processed (actions (main_loop limit arrivals st))
                     ++ message_queue (main_loop limit arrivals st))
                    (seen ++ concat arrivals)).
  { induction arrivals as [|arrived arrivals IH]; intros st seen Hst.
    - simpl. now rewrite app_nil_r.
    - cbn [main_loop fold_left concat].
      fold (main_loop limit arrivals (main_loop_turn limit st arrived)).
      rewrite app_assoc. apply IH.
      unfold main_loop_turn. rewrite spinOnce_appends.
      cbn [actions message_queue]. rewrite app_assoc.
      apply Subseq_app; [|apply Subseq_refl].
      eapply Subseq_trans; [apply process_queue_keeps_order | exact Hst]. }
  apply Hgen. simpl. apply Subseq_refl.
Qed.

End QueueFacts.

End VisionNodeFacts.

(** * Worked examples for the further properties *)

Import Scenario.

(** X1 on the mask of [wide_frame]. *)
Lemma boundMask_on_wide_frame :
  boundMask lib debugging (thresholdFrame lib debugging wide_frame []) empty_heap
  = (Ret tt,
     mkHeap (flat_map (kept_rect lib)
                      (findContours lib (thresholdFrame lib debugging wide_frame [])))
            (published empty_heap
             ++ (if debug_contours debugging
                 then [Publish_contours
                         (rows (thresholdFrame lib debugging wide_frame []))
                         (cols (thresholdFrame lib debugging wide_frame []))
                         (findContours lib
                            (thresholdFrame lib debugging wide_frame []))]
                 else []))).
Proof.
  apply (boundMask_returns_kept_rects lib debugging).
  vm_compute. reflexivity.
Defined.

(** X2 on [wide_frame]. *)
Lemma detect_on_wide_frame :
  detect lib debugging centre_footprint wide_frame empty_heap
  = (Ret tt,
     mkHeap (map (checkCorners_rect lib debugging centre_footprint wide_frame)
                 (flat_map (kept_rect lib)
                           (findContours lib
                              (thresholdFrame lib debugging wide_frame []))))
            (published empty_heap ++ debug_images lib debugging wide_frame)).
Proof.
  apply (detect_is_corner_check_of_kept_rects
           lib debugging centre_footprint wide_frame empty_heap).
  vm_compute. reflexivity.
Defined.

(** X3 on the 100x50 box: the axes are (0,1) and (1,0), the sides 50 and
    100. *)
Lemma sides_of_plate_sized_box :
  (forall p q, In p box_100_50 -> In q box_100_50 ->
               proj (0, 1) p - proj (0, 1) q <= size_width (fitted box_100_50)
               /\ proj (1, 0) p - proj (1, 0) q
                  <= size_height (fitted box_100_50))
  /\ (exists p q, In p box_100_50 /\ In q box_100_50
                  /\ size_width (fitted box_100_50)
                     = proj (0, 1) p - proj (0, 1) q)
  /\ (exists p q, In p box_100_50 /\ In q box_100_50
                  /\ size_height (fitted box_100_50)
                     = proj (1, 0) p - proj (1, 0) q)
  /\ 0 <= size_width (fitted box_100_50)
  /\ 0 <= size_height (fitted box_100_50).
Proof.
  apply (fitRect_sides_are_projection_spreads
           lib (moments lib box_100_50) box_100_50 (fitted box_100_50)
           (0, 1) (1, 0)).
  - vm_compute. reflexivity.
  - vm_compute. reflexivity.
Defined.

(** X4 on the 100x50 box, at its corner (100, 50). *)
Lemma plate_sized_box_contains_its_contour :
  - (size_width (fitted box_100_50) / 2)
  <= proj (0, 1) (100, 50)%Z - dot (0, 1) (center (fitted box_100_50))
  /\ proj (0, 1) (100, 50)%Z - dot (0, 1) (center (fitted box_100_50))
     <= size_width (fitted box_100_50) / 2
  /\ - (size_height (fitted box_100_50) / 2)
     <= proj (1, 0) (100, 50)%Z - dot (1, 0) (center (fitted box_100_50))
  /\ proj (1, 0) (100, 50)%Z - dot (1, 0) (center (fitted box_100_50))
     <= size_height (fitted box_100_50) / 2.
Proof.
  apply (fitRect_contains_contour
           lib (moments lib box_100_50) box_100_50 (fitted box_100_50)
           (0, 1) (1, 0)).
  - vm_compute. reflexivity.
  - reflexivity.
  - reflexivity.
  - reflexivity.
  - vm_compute. reflexivity.
  - right. right. left. reflexivity.
Defined.


(** X6 with [inverted_saturation]. *)
Lemma inverted_saturation_disables_corner_check :
  (forall window : RotatedRect,
      patch_good lib inverted_saturation centre_footprint high_side_frame window
      = 0%Z)
  /\ checkCorners lib inverted_saturation centre_footprint high_side_frame
                  (mkHeap [square] [])
     = (Ret tt, mkHeap [square] []).
Proof.
  apply (inverted_range_disables_corner_check
           lib inverted_saturation centre_footprint high_side_frame
           (mkHeap [square] [])).
  left. vm_compute. reflexivity.
Defined.

(** X7 with three images and a limit of 5. *)
Lemma queue_policy_on_three_images :
  ((Z.of_nat (length [1; 2; 3]%nat) <= 5)%Z ->
   VisionNode.process_queue 5 (VisionNode.mkLoopState [1; 2; 3]%nat [])
   = VisionNode.mkLoopState [2; 3]%nat ([] ++ VisionNode.updates_for 1%nat))
  /\
  ((5 < Z.of_nat (length [1; 2; 3]%nat))%Z ->
   VisionNode.process_queue 5 (VisionNode.mkLoopState [1; 2; 3]%nat [])
   = VisionNode.mkLoopState
       []
       ([] ++ VisionNode.ROS_ERROR_too_many (Z.of_nat (length [1; 2; 3]%nat))
           :: VisionNode.updates_for (last [2; 3]%nat 1%nat))).
Proof.
  apply (VisionNodeFacts.process_queue_policy 5 1%nat [2; 3]%nat []).
  vm_compute. reflexivity.
Defined.

(** X8 on three images with a limit of 5. *)
Lemma three_images_drained_in_order :
  VisionNode.main_loop 5 (repeat [] (length [1; 2; 3]%nat))
                       (VisionNode.mkLoopState [1; 2; 3]%nat [])
  = VisionNode.mkLoopState
      [] ([] ++ flat_map VisionNode.updates_for [1; 2; 3]%nat).
Proof.
  apply (VisionNodeFacts.main_loop_drains_queue_in_order 5 [1; 2; 3]%nat []).
  - vm_compute. reflexivity.
  - vm_compute. discriminate.
Defined.
